(** * Search spaces of the forest estimators: hpsklearn/components/ensemble/_forest.py

    A shallow embedding of the hyperparameter search-space builders for
    random forests and extra trees, and the properties of their validation
    layer, their space composer and their four family entry points. *)

From Stdlib Require Import ZArith Ascii.
From Stdlib Require Import Floats.PrimFloat Floats.FloatOps Floats.SpecFloat.
From stdpp Require Import base strings list gmap.

Set Warnings "-inexact-float,-register-all".

(** ** Python values *)

(** A Python [float] is an IEEE 754 binary64 number; [spec_float] is its
    inductive description. Float literals of the source are written with
    the primitive-float parser and converted once. *)
Abbreviation py_float := spec_float (only parsing).

Definition float_lit (x : PrimFloat.float) : py_float := Prim2SF x.

(** The literal values a caller can pass for the annotated parameters of
    the builders ([int], [float], [str], [bool], or [None]). *)
Inductive pylit : Type :=
  | LNone
  | LBool (b : bool)
  | LInt (n : Z)
  | LFloat (x : py_float)
  | LStr (s : string).

(** [isinstance(v, float)] and [isinstance(v, str)]. A [bool] is an [int]
    in Python but never a [float]. *)
Definition isinstance_float (v : pylit) : bool :=
  match v with LFloat _ => true | _ => false end.

Definition isinstance_str (v : pylit) : bool :=
  match v with LStr _ => true | _ => false end.

(** Comparison of a float with the integer literal [0], which is all the
    validation lambdas compare (they test [isinstance(param, float)] first and
    [and] does not evaluate its right operand otherwise). This is the IEEE
    comparison: false whenever the float is a NaN. *)
Definition float_zero : py_float := S754_zero false.

Definition float_gt_0 (x : py_float) : bool := SFltb float_zero x.
Definition float_lt_0 (x : py_float) : bool := SFltb x float_zero.

(** Truth value of a literal, as [or] and [any] test it. *)
Definition py_truthy (v : pylit) : bool :=
  match v with
  | LNone => false
  | LBool b => b
  | LInt n => negb (n =? 0)%Z
  | LFloat x => negb (SFeqb x float_zero)
  | LStr s => negb (String.eqb s "")
  end.

Definition is_None (v : pylit) : bool :=
  match v with LNone => true | _ => false end.

(** [v is False]: identity with the singleton [False]. *)
Definition is_False (v : pylit) : bool :=
  match v with LBool false => true | _ => false end.

(** [any(l)]: always a [bool]. *)
Definition py_any (l : list pylit) : pylit := LBool (existsb py_truthy l).

(** ** The expression graph

    What the builders return: literals, the named stochastic nodes of
    [hyperopt.hp], [scope.int], and the deferred call of an estimator
    constructor registered with [scope.define]. Nothing is sampled or
    evaluated here. *)

(** A bound of a log-uniform range: the source writes [np.log(c)], whose
    value is numpy's; the argument is kept. *)
Inductive bound : Type :=
  | np_log (c : py_float).

Inductive pyval : Type :=
  | Lit (v : pylit)
  | hp_choice (label : string) (options : list pyval)
  | hp_pchoice (label : string) (p_options : list (py_float * pyval))
  | hp_uniform (label : string) (low high : py_float)
  | hp_qloguniform (label : string) (low high : bound) (q : Z)
  | hp_randint (label : string) (upper : Z)
  | scope_int (arg : pyval)
  | scope_call (fn : string) (named_args : list (string * pyval)).

(** The labels of the stochastic nodes of a graph, in the order of a
    depth-first traversal. *)
Fixpoint labels (e : pyval) : list string :=
  match e with
  | Lit _ => []
  | hp_choice l opts => l :: flat_map labels opts
  | hp_pchoice l popts =>
      l :: flat_map (fun pv => match pv with (_, v) => labels v end) popts
  | hp_uniform l _ _ => [l]
  | hp_qloguniform l _ _ _ => [l]
  | hp_randint l _ => [l]
  | scope_int a => labels a
  | scope_call _ kws =>
      flat_map (fun kv => match kv with (_, v) => labels v end) kws
  end.

(** A Python [dict] with string keys, in insertion order. [dict_set] is
    [d[k] = v]: an existing key keeps its place, a new one goes last. *)
Abbreviation pydict := (list (string * pyval)) (only parsing).

Fixpoint dict_get (d : pydict) (k : string) : option pyval :=
  match d with
  | [] => None
  | (k', v) :: d' => if String.eqb k' k then Some v else dict_get d' k
  end.

Fixpoint dict_set (d : pydict) (k : string) (v : pyval) : pydict :=
  match d with
  | [] => [(k, v)]
  | (k', v') :: d' =>
      if String.eqb k' k then (k, v) :: d' else (k', v') :: dict_set d' k v
  end.

Definition dict_keys (d : pydict) : list string := map fst d.

(** ** Exceptions *)

(** The argument of a [ValueError]: a plain text, or [template % args] with
    the template and the arguments of the [%] operator kept apart.
    [TypeError] is what binding the keyword arguments to a signature raises
    for a name the signature does not have. *)
Inductive message : Type :=
  | Text (s : string)
  | Format (template : string) (args : list pylit).

Inductive exn : Type :=
  | ValueError (m : message)
  | TypeError.

Inductive result (A : Type) : Type :=
  | Ok (a : A)
  | Raise (e : exn).
Arguments Ok {A} a.
Arguments Raise {A} e.

(** Sequencing of calls that may raise, with stdpp's monad notations. *)
#[global] Instance result_ret : MRet result := fun _ a => Ok a.
#[global] Instance result_bind : MBind result := fun _ _ k r =>
  match r with
  | Ok a => k a
  | Raise e => Raise e
  end.

Definition is_Ok {A : Type} (r : result A) : bool :=
  match r with Ok _ => true | Raise _ => false end.

(** [str(v)] for the literals whose text does not involve printing a number. *)
Definition py_str (v : pylit) : option string :=
  match v with
  | LNone => Some "None"
  | LBool true => Some "True"
  | LBool false => Some "False"
  | LStr s => Some s
  | LInt _ | LFloat _ => None
  end.

(** [template % args] for a template whose only conversions are [%s];
    [None] when the number of arguments is not the number of conversions
    (Python raises then). *)
Fixpoint percent_format (template : string) (args : list string) : option string :=
  match template with
  | String "%"%char (String "s"%char rest) =>
      match args with
      | a :: args' => String.append a <$> percent_format rest args'
      | [] => None
      end
  | String c rest => String c <$> percent_format rest args
  | EmptyString => match args with [] => Some EmptyString | _ :: _ => None end
  end.

(** The message of an exception, where [py_str] gives the text of its
    arguments. *)
Definition exn_message (e : exn) : option string :=
  match e with
  | ValueError (Text s) => Some s
  | ValueError (Format template args) => mapM py_str args ≫= percent_format template
  | TypeError => None
  end.

(** ** Parameter distributions *)

Definition _forest_classifier_criterion (name : string) : pyval :=
  hp_choice name [Lit (LStr "gini"); Lit (LStr "entropy")].

Definition _random_forest_regressor_criterion (name : string) : pyval :=
  hp_choice name [Lit (LStr "squared_error"); Lit (LStr "absolute_error")].

Definition _extra_trees_regressor_criterion (name : string) : pyval :=
  hp_choice name [Lit (LStr "squared_error"); Lit (LStr "absolute_error")].

Definition _forest_n_estimators (name : string) : pyval :=
  scope_int (hp_qloguniform name (np_log (float_lit 9.5)) (np_log (float_lit 3000.5)) 1).

Definition _forest_max_depth (name : string) : pyval :=
  hp_pchoice name [
    (float_lit 0.7, Lit LNone);
    (float_lit 0.1, Lit (LInt 2));
    (float_lit 0.1, Lit (LInt 3));
    (float_lit 0.1, Lit (LInt 4))
  ].

Definition _forest_min_samples_split (name : string) : pyval :=
  hp_pchoice name [
    (float_lit 0.95, Lit (LInt 2));
    (float_lit 0.05, Lit (LInt 3))
  ].

Definition _forest_min_samples_leaf (name : string) : pyval :=
  hp_choice name [
    Lit (LInt 1);
    scope_int (hp_qloguniform (name +:+ ".gt1")
                 (np_log (float_lit 1.5)) (np_log (float_lit 50.5)) 1)
  ].

Definition _forest_min_weight_fraction_leaf (name : string) : pyval :=
  Lit (LFloat (float_lit 0.0)).

Definition _forest_max_features (name : string) : pyval :=
  hp_pchoice name [
    (float_lit 0.2, Lit (LStr "sqrt"));
    (float_lit 0.1, Lit (LStr "log2"));
    (float_lit 0.1, Lit LNone);
    (float_lit 0.6, hp_uniform (name +:+ ".frac") (float_lit 0.0) (float_lit 1.0))
  ].

Definition _forest_max_leaf_nodes (name : string) : pyval :=
  hp_pchoice name [
    (float_lit 0.85, Lit LNone);
    (float_lit 0.05, Lit (LInt 5));
    (float_lit 0.05, Lit (LInt 10));
    (float_lit 0.05, Lit (LInt 15))
  ].

Definition _forest_min_impurity_decrease (name : string) : pyval :=
  hp_pchoice name [
    (float_lit 0.85, Lit (LFloat (float_lit 0.0)));
    (float_lit 0.05, Lit (LFloat (float_lit 0.01)));
    (float_lit 0.05, Lit (LFloat (float_lit 0.02)));
    (float_lit 0.05, Lit (LFloat (float_lit 0.05)))
  ].

Definition _forest_bootstrap (name : string) : pyval :=
  hp_choice name [Lit (LBool true); Lit (LBool false)].

Definition _forest_random_state (name : string) : pyval :=
  hp_randint name 5.

(** ** Validation layer *)

(** The keyword arguments of a call: a Python [dict] from parameter names to
    the values the caller passed. Only the names the caller wrote are in it. *)
Abbreviation kwargs_t := (gmap string pylit) (only parsing).

(** Modelled from the spec: the decorator [validate] of [._base], which
    [_forest.py] imports and which is not among the sources. For each listed
    parameter name, in order, that is present in the keyword arguments, the
    predicate is applied to its value; if it returns true the call fails with
    the message formatted with the parameter name and the value, before the
    wrapped function runs. *)
Fixpoint validate_params (params : list string) (validation_test : pylit -> bool)
    (msg : string) (kwargs : kwargs_t) : result unit :=
  match params with
  | [] => Ok tt
  | param :: params' =>
      match kwargs !! param with
      | Some v =>
          if validation_test v then Raise (ValueError (Format msg [LStr param; v]))
          else validate_params params' validation_test msg kwargs
      | None => validate_params params' validation_test msg kwargs
      end
  end.

Definition validate {Args A : Type} (params : list string)
    (validation_test : pylit -> bool) (msg : string)
    (func : Args -> kwargs_t -> result A) : Args -> kwargs_t -> result A :=
  fun args kwargs =>
    validate_params params validation_test msg kwargs ≫= fun _ => func args kwargs.

(** The three rules attached to [_forest_hp_space], as their lambdas read. *)
Definition max_features_test (param : pylit) : bool :=
  match param with
  | LStr s => negb (bool_decide (s ∈ ["auto"; "sqrt"; "log2"]))
  | _ => false
  end.

Definition max_features_msg : string :=
  "Invalid parameter '%s' with value '%s'. Value must be in ['auto', 'sqrt', 'log2'].".

Definition positive_params : list string :=
  ["n_estimators"; "max_depth"; "min_samples_split";
   "min_samples_leaf"; "max_features"; "max_leaf_nodes";
   "min_impurity_decrease"].

Definition positive_test (param : pylit) : bool :=
  match param with
  | LFloat x => negb (float_gt_0 x)
  | _ => false
  end.

Definition positive_msg : string :=
  "Invalid parameter '%s' with value '%s'. Parameter value must be non-negative and greater than 0.".

Definition ccp_alpha_test (param : pylit) : bool :=
  match param with
  | LFloat x => negb (float_lt_0 x)
  | _ => false
  end.

Definition ccp_alpha_msg : string :=
  "Invalid parameter '%s' with value '%s'. Parameter value must be non-negative.".

(** ** Space composer *)

(** [value or default]. *)
Definition py_or (value : pylit) (default : pyval) : pyval :=
  if py_truthy value then Lit value else default.

(** [default if value is None else value]. *)
Definition if_None_else (default : pyval) (value : pylit) : pyval :=
  if is_None value then default else Lit value.

Definition bootstrap_msg : string :=
  "Invalid declaration of parameters. " +:+ String "010"%char
  ("For usage of custom parameters 'oob_score' and 'max_samples' " +:+
   "parameter 'bootstrap' can not be False.").

(** The mapping [hp_space] that [_forest_hp_space] builds with [dict(...)],
    on its parameters once bound. *)
Definition hp_space (name_func : string -> string)
    (n_estimators max_depth min_samples_split min_samples_leaf
     min_weight_fraction_leaf max_features max_leaf_nodes
     min_impurity_decrease bootstrap oob_score n_jobs random_state
     verbose warm_start ccp_alpha max_samples : pylit) : pydict :=
  [ ("n_estimators", py_or n_estimators (_forest_n_estimators (name_func "n_estimators")));
    ("max_depth", if_None_else (_forest_max_depth (name_func "max_depth")) max_depth);
    ("min_samples_split",
      py_or min_samples_split (_forest_min_samples_split (name_func "min_samples_split")));
    ("min_samples_leaf",
      py_or min_samples_leaf (_forest_min_samples_leaf (name_func "min_samples_leaf")));
    ("min_weight_fraction_leaf",
      py_or min_weight_fraction_leaf
        (_forest_min_weight_fraction_leaf (name_func "min_weight_fraction_leaf")));
    ("max_features", py_or max_features (_forest_max_features (name_func "max_features")));
    ("max_leaf_nodes",
      if_None_else (_forest_max_leaf_nodes (name_func "max_leaf_nodes")) max_leaf_nodes);
    ("min_impurity_decrease",
      py_or min_impurity_decrease
        (_forest_min_impurity_decrease (name_func "min_impurity_decrease")));
    ("bootstrap", if_None_else (_forest_bootstrap (name_func "bootstrap")) bootstrap);
    ("oob_score", Lit oob_score);
    ("n_jobs", Lit n_jobs);
    ("random_state",
      if_None_else (_forest_random_state (name_func "random_state")) random_state);
    ("verbose", Lit verbose);
    ("warm_start", Lit warm_start);
    ("ccp_alpha", Lit ccp_alpha);
    ("max_samples", Lit max_samples) ].

(** The body of [_forest_hp_space]: the check on [bootstrap], then the
    mapping. *)
Definition _forest_hp_space_body (name_func : string -> string)
    (n_estimators max_depth min_samples_split min_samples_leaf
     min_weight_fraction_leaf max_features max_leaf_nodes
     min_impurity_decrease bootstrap oob_score n_jobs random_state
     verbose warm_start ccp_alpha max_samples : pylit) : result pydict :=
  if is_False bootstrap && negb (is_None (py_any [oob_score; max_samples]))
  then Raise (ValueError (Text bootstrap_msg))
  else Ok (hp_space name_func
             n_estimators max_depth min_samples_split min_samples_leaf
             min_weight_fraction_leaf max_features max_leaf_nodes
             min_impurity_decrease bootstrap oob_score n_jobs random_state
             verbose warm_start ccp_alpha max_samples).

(** The keyword parameters of [_forest_hp_space], in the order of its
    signature. [name_func] is positional in every call of this file. *)
Definition forest_params : list string :=
  ["n_estimators"; "max_depth"; "min_samples_split"; "min_samples_leaf";
   "min_weight_fraction_leaf"; "max_features"; "max_leaf_nodes";
   "min_impurity_decrease"; "bootstrap"; "oob_score"; "n_jobs";
   "random_state"; "verbose"; "warm_start"; "ccp_alpha"; "max_samples"].

(** The value a parameter is bound to: the caller's, or the default of the
    signature. *)
Definition arg (kwargs : kwargs_t) (param : string) (dflt : pylit) : pylit :=
  default dflt (kwargs !! param).

(** Binding the keyword arguments to the sixteen keyword parameters of the
    signature, with its defaults. *)
Definition bind_signature {A : Type}
    (func : pylit -> pylit -> pylit -> pylit -> pylit -> pylit -> pylit -> pylit ->
            pylit -> pylit -> pylit -> pylit -> pylit -> pylit -> pylit -> pylit -> A)
    (kwargs : kwargs_t) : A :=
  func
    (arg kwargs "n_estimators" LNone)
    (arg kwargs "max_depth" LNone)
    (arg kwargs "min_samples_split" LNone)
    (arg kwargs "min_samples_leaf" LNone)
    (arg kwargs "min_weight_fraction_leaf" LNone)
    (arg kwargs "max_features" LNone)
    (arg kwargs "max_leaf_nodes" LNone)
    (arg kwargs "min_impurity_decrease" LNone)
    (arg kwargs "bootstrap" LNone)
    (arg kwargs "oob_score" (LBool false))
    (arg kwargs "n_jobs" (LInt 1))
    (arg kwargs "random_state" LNone)
    (arg kwargs "verbose" (LBool false))
    (arg kwargs "warm_start" (LBool false))
    (arg kwargs "ccp_alpha" (LFloat (float_lit 0.0)))
    (arg kwargs "max_samples" LNone).

(** The undecorated [_forest_hp_space]: a keyword the signature does not
    have is a [TypeError]; otherwise the body runs on the bound parameters. *)
Definition _forest_hp_space_undecorated (name_func : string -> string)
    (kwargs : kwargs_t) : result pydict :=
  if bool_decide (dom kwargs ⊆ list_to_set forest_params)
  then bind_signature (_forest_hp_space_body name_func) kwargs
  else Raise TypeError.

(** [_forest_hp_space] as decorated: the outermost decorator runs first. *)
Definition _forest_hp_space : (string -> string) -> kwargs_t -> result pydict :=
  validate ["max_features"] max_features_test max_features_msg
    (validate positive_params positive_test positive_msg
      (validate ["ccp_alpha"] ccp_alpha_test ccp_alpha_msg
        _forest_hp_space_undecorated)).

(** ** Family entry points

    [kwargs] holds the keyword arguments other than [name] and [criterion],
    which the signatures of the entry points bind themselves. *)

Definition random_forest_classifier (name : string) (criterion : pylit)
    (kwargs : kwargs_t) : result pyval :=
  let _name msg := name +:+ ".rfc_" +:+ msg in
  hp_space ← _forest_hp_space _name kwargs;
  let hp_space := dict_set hp_space "criterion"
    (py_or criterion (_forest_classifier_criterion (_name "criterion"))) in
  Ok (scope_call "sklearn_RandomForestClassifier" hp_space).

Definition random_forest_regressor (name : string) (criterion : pylit)
    (kwargs : kwargs_t) : result pyval :=
  let _name msg := name +:+ ".rfr_" +:+ msg in
  hp_space ← _forest_hp_space _name kwargs;
  let hp_space := dict_set hp_space "criterion"
    (py_or criterion (_random_forest_regressor_criterion (_name "criterion"))) in
  Ok (scope_call "sklearn_RandomForestRegressor" hp_space).

Definition extra_trees_classifier (name : string) (criterion : pylit)
    (kwargs : kwargs_t) : result pyval :=
  let _name msg := name +:+ ".etc_" +:+ msg in
  hp_space ← _forest_hp_space _name kwargs;
  let hp_space := dict_set hp_space "criterion"
    (py_or criterion (_forest_classifier_criterion (_name "criterion"))) in
  Ok (scope_call "sklearn_ExtraTreesClassifier" hp_space).

Definition extra_trees_regressor (name : string) (criterion : pylit)
    (kwargs : kwargs_t) : result pyval :=
  let _name msg := name +:+ ".etr_" +:+ msg in
  hp_space ← _forest_hp_space _name kwargs;
  let hp_space := dict_set hp_space "criterion"
    (py_or criterion (_extra_trees_regressor_criterion (_name "criterion"))) in
  Ok (scope_call "sklearn_ExtraTreesRegressor" hp_space).

(** The four families, to state a property of every entry point at once. *)
Inductive family : Type := RFC | RFR | ETC | ETR.

Definition entry_point (f : family) : string -> pylit -> kwargs_t -> result pyval :=
  match f with
  | RFC => random_forest_classifier
  | RFR => random_forest_regressor
  | ETC => extra_trees_classifier
  | ETR => extra_trees_regressor
  end.

Definition family_tag (f : family) : string :=
  match f with
  | RFC => "rfc_"
  | RFR => "rfr_"
  | ETC => "etc_"
  | ETR => "etr_"
  end.

(** The naming closure [_name] of a family: [f"{name}.<tag>{msg}"]. *)
Definition _name (f : family) (name msg : string) : string :=
  name +:+ "." +:+ family_tag f +:+ msg.

Definition family_constructor (f : family) : string :=
  match f with
  | RFC => "sklearn_RandomForestClassifier"
  | RFR => "sklearn_RandomForestRegressor"
  | ETC => "sklearn_ExtraTreesClassifier"
  | ETR => "sklearn_ExtraTreesRegressor"
  end.

Definition family_criterion (f : family) : string -> pyval :=
  match f with
  | RFC => _forest_classifier_criterion
  | RFR => _random_forest_regressor_criterion
  | ETC => _forest_classifier_criterion
  | ETR => _extra_trees_regressor_criterion
  end.

(** The mapping bound into the node an entry point returns, and the labels
    of a result (none when the call raised). *)
Definition bound_mapping (r : result pyval) : option pydict :=
  match r with
  | Ok (scope_call _ kws) => Some kws
  | _ => None
  end.

Definition result_labels (r : result pyval) : list string :=
  match r with
  | Ok e => labels e
  | Raise _ => []
  end.

(** ** Vocabulary of the properties *)

(** Reading the mapping of a result. *)
Definition result_get (r : result pyval) (key : string) : option pyval :=
  bound_mapping r ≫= fun d => dict_get d key.

(** The keys of the mapping an entry point binds: the parameters of the
    composer, then [criterion]. *)
Definition documented_keys : list string := forest_params ++ ["criterion"].

(** What an exception of the decorated composer can be, and why. *)
Inductive forest_exn (kwargs : kwargs_t) : exn -> Prop :=
  | exn_max_features (v : pylit) :
      kwargs !! "max_features" = Some v -> max_features_test v = true ->
      forest_exn kwargs (ValueError (Format max_features_msg [LStr "max_features"; v]))
  | exn_positive (param : string) (v : pylit) :
      param ∈ positive_params -> kwargs !! param = Some v -> positive_test v = true ->
      forest_exn kwargs (ValueError (Format positive_msg [LStr param; v]))
  | exn_ccp_alpha (v : pylit) :
      kwargs !! "ccp_alpha" = Some v -> ccp_alpha_test v = true ->
      forest_exn kwargs (ValueError (Format ccp_alpha_msg [LStr "ccp_alpha"; v]))
  | exn_bootstrap :
      is_False (arg kwargs "bootstrap" LNone) = true ->
      forest_exn kwargs (ValueError (Text bootstrap_msg))
  | exn_signature :
      ¬ dom kwargs ⊆ list_to_set forest_params ->
      forest_exn kwargs TypeError.

(** A validation error: one of the three messages, formatted with a
    parameter the caller passed and its value. *)
Definition validation_error (kwargs : kwargs_t) (e : exn) : Prop :=
  exists template param v,
    e = ValueError (Format template [LStr param; v]) /\
    template ∈ [max_features_msg; positive_msg; ccp_alpha_msg] /\
    kwargs !! param = Some v.

(** The four parameters defaulted with [or] that the open question of the
    specification lists, with their generators. *)
Definition or_defaulted : list (string * (string -> pyval)) :=
  [ ("min_samples_split", _forest_min_samples_split);
    ("min_samples_leaf", _forest_min_samples_leaf);
    ("max_features", _forest_max_features);
    ("min_impurity_decrease", _forest_min_impurity_decrease) ].

(** The parameter names, and derived sub-names, that label a stochastic
    node when no override is passed, in the order of the mapping. *)
Definition leaf_params : list string :=
  ["n_estimators"; "max_depth"; "min_samples_split";
   "min_samples_leaf"; "min_samples_leaf.gt1";
   "max_features"; "max_features.frac";
   "max_leaf_nodes"; "min_impurity_decrease"; "bootstrap";
   "random_state"; "criterion"].

(** ** Aggregates *)

(** [_forest_classifiers] and [_forest_regressors]: the two builders of a
    task, called in order with no override, under a sub-name of the base
    name. An exception of either call is the exception of the aggregate. *)
Definition _forest_classifiers (name : string) : result (list pyval) :=
  rf ← random_forest_classifier (name +:+ ".random_forest") LNone ∅;
  et ← extra_trees_classifier (name +:+ ".extra_trees") LNone ∅;
  Ok [rf; et].

Definition _forest_regressors (name : string) : result (list pyval) :=
  rf ← random_forest_regressor (name +:+ ".random_forest") LNone ∅;
  et ← extra_trees_regressor (name +:+ ".extra_trees") LNone ∅;
  Ok [rf; et].

(** The labels of the nodes of a list of graphs. *)
Definition results_labels (r : result (list pyval)) : list string :=
  match r with
  | Ok es => flat_map labels es
  | Raise _ => []
  end.

(** The proper suffixes of a string, longest first. *)
Fixpoint proper_suffixes (s : string) : list string :=
  match s with
  | EmptyString => []
  | String _ s' => s' :: proper_suffixes s'
  end.

(** What the closure of a family appends to the base name, for each of the
    twelve leaf (sub-)names. *)
Definition leaf_suffix (f : family) (param : string) : string :=
  "." +:+ family_tag f +:+ param.

Definition leaf_suffixes : list string :=
  f ← [RFC; RFR; ETC; ETR]; leaf_suffix f <$> leaf_params.

(** The three rules hold of the keyword arguments: no string for
    [max_features] outside the three names, no float that is not greater
    than 0 for a parameter of the second rule, no float for [ccp_alpha]
    that the third rule's predicate accepts. *)
Definition rules_pass (kwargs : kwargs_t) : Prop :=
  (forall s, kwargs !! "max_features" = Some (LStr s) -> s ∈ ["auto"; "sqrt"; "log2"]) /\
  (forall param x, param ∈ positive_params ->
     kwargs !! param = Some (LFloat x) -> float_gt_0 x = true) /\
  (forall x, kwargs !! "ccp_alpha" = Some (LFloat x) -> float_lt_0 x = true).

(** The three decorators in the order they run. *)
Definition rules_check (kwargs : kwargs_t) : result unit :=
  validate_params ["max_features"] max_features_test max_features_msg kwargs ≫= fun _ =>
  validate_params positive_params positive_test positive_msg kwargs ≫= fun _ =>
  validate_params ["ccp_alpha"] ccp_alpha_test ccp_alpha_msg kwargs.

(** The keyword parameters of [_forest_hp_space] with the defaults of its
    signature. *)
Definition signature_defaults : list (string * pylit) :=
  [ ("n_estimators", LNone); ("max_depth", LNone); ("min_samples_split", LNone);
    ("min_samples_leaf", LNone); ("min_weight_fraction_leaf", LNone);
    ("max_features", LNone); ("max_leaf_nodes", LNone);
    ("min_impurity_decrease", LNone); ("bootstrap", LNone);
    ("oob_score", LBool false); ("n_jobs", LInt 1); ("random_state", LNone);
    ("verbose", LBool false); ("warm_start", LBool false);
    ("ccp_alpha", LFloat (float_lit 0.0)); ("max_samples", LNone) ].

(** The keys of the mapping that can hold a stochastic node, each with the
    leaf (sub-)names of its default distribution. *)
Definition leaf_groups : list (string * list string) :=
  [ ("n_estimators", ["n_estimators"]);
    ("max_depth", ["max_depth"]);
    ("min_samples_split", ["min_samples_split"]);
    ("min_samples_leaf", ["min_samples_leaf"; "min_samples_leaf.gt1"]);
    ("max_features", ["max_features"; "max_features.frac"]);
    ("max_leaf_nodes", ["max_leaf_nodes"]);
    ("min_impurity_decrease", ["min_impurity_decrease"]);
    ("bootstrap", ["bootstrap"]);
    ("random_state", ["random_state"]);
    ("criterion", ["criterion"]) ].

(** The labels a key contributes to a result: none when the mapping holds a
    literal for it, the names of its group otherwise. *)
Definition group_labels (f : family) (name : string) (r : result pyval)
    (group : string * list string) : list string :=
  match result_get r group.1 with
  | Some (Lit _) => []
  | _ => _name f name <$> group.2
  end.

(** The parameters that [_forest_hp_space] copies into the mapping as they
    are, with the defaults of the signature. *)
Definition passthrough_defaults : list (string * pylit) :=
  [ ("oob_score", LBool false); ("n_jobs", LInt 1); ("verbose", LBool false);
    ("warm_start", LBool false); ("ccp_alpha", LFloat (float_lit 0.0));
    ("max_samples", LNone) ].

(** The six parameters of the composer defaulted with [or], and the three
    defaulted with [is None] besides [random_state], with their generators. *)
Definition or_generators : list (string * (string -> pyval)) :=
  ("n_estimators", _forest_n_estimators) ::
  ("min_weight_fraction_leaf", _forest_min_weight_fraction_leaf) ::
  or_defaulted.

Definition is_None_generators : list (string * (string -> pyval)) :=
  [ ("max_depth", _forest_max_depth);
    ("max_leaf_nodes", _forest_max_leaf_nodes);
    ("bootstrap", _forest_bootstrap) ].


(** * Properties *)

(** ** Sanity checks of the model *)

Example float_lits :
  float_lit 0.5 = S754_finite false 4503599627370496 (-53) /\
  float_lit 0 = float_zero /\
  py_truthy (LFloat (float_lit (-0))) = false /\
  float_lt_0 (float_lit (-0.1)) = true.
Proof. vm_compute. auto. Qed.

Example percent_format_two :
  percent_format "param '%s' has value '%s'." ["depth"; "x"]
  = Some "param 'depth' has value 'x'.".
Proof. reflexivity. Qed.

Example rfc_default_ok :
  is_Ok (random_forest_classifier "rf" LNone ∅) = true.
Proof. vm_compute. reflexivity. Qed.

(** ** The result monad and the entry points *)

Lemma bind_Ok {A B : Type} (a : A) (k : A -> result B) : Ok a ≫= k = k a.
Proof. reflexivity. Qed.

Lemma bind_Ok_inv {A B : Type} (r : result A) (k : A -> result B) (b : B) :
  r ≫= k = Ok b -> exists a, r = Ok a /\ k a = Ok b.
Proof. destruct r as [a|e]; simpl; [eauto | discriminate]. Qed.

Lemma bind_Raise_inv {A B : Type} (r : result A) (k : A -> result B) (e : exn) :
  r ≫= k = Raise e -> r = Raise e \/ exists a, r = Ok a /\ k a = Raise e.
Proof. destruct r as [a|e']; simpl; intros H; [right; eauto | left; congruence]. Qed.

(** The four entry points are one scheme, instantiated by the tag, the
    criterion generator and the constructor of the family. *)
Lemma entry_point_eq (f : family) (name : string) (criterion : pylit) (kwargs : kwargs_t) :
  entry_point f name criterion kwargs =
  _forest_hp_space (_name f name) kwargs ≫= fun hp_space =>
    Ok (scope_call (family_constructor f)
          (dict_set hp_space "criterion"
             (py_or criterion (family_criterion f (_name f name "criterion"))))).
Proof. destruct f; reflexivity. Qed.

(** ** The validation layer *)

Section validate_params.
Context (params : list string) (validation_test : pylit -> bool) (msg : string).
Context (kwargs : kwargs_t).

(** The first listed parameter decides, when the predicate accepts its
    value. *)
Lemma validate_params_head (param : string) (v : pylit) :
  kwargs !! param = Some v -> validation_test v = true ->
  validate_params (param :: params) validation_test msg kwargs
  = Raise (ValueError (Format msg [LStr param; v])).
Proof. intros Hv Ht. simpl. by rewrite Hv, Ht. Qed.

(** A failing rule names a listed parameter the caller passed and whose
    value the predicate accepts. *)
Lemma validate_params_Raise_inv (e : exn) :
  validate_params params validation_test msg kwargs = Raise e ->
  exists param v,
    e = ValueError (Format msg [LStr param; v]) /\ param ∈ params /\
    kwargs !! param = Some v /\ validation_test v = true.
Proof.
  induction params as [|p ps IH]; simpl; [discriminate|].
  destruct (kwargs !! p) as [v|] eqn:Hp.
  - destruct (validation_test v) eqn:Hv.
    + intros [= <-]. exists p, v. repeat split; auto. apply list_elem_of_here.
    + intros (q & w & ? & ? & ?)%IH. exists q, w. split; [done|]. split; [|done].
      by apply list_elem_of_further.
  - intros (q & w & ? & ? & ?)%IH. exists q, w. split; [done|]. split; [|done].
    by apply list_elem_of_further.
Qed.

(** A rule fails as soon as one listed parameter is passed with a value
    the predicate accepts. *)
Lemma validate_params_Raise (param : string) (v : pylit) :
  param ∈ params -> kwargs !! param = Some v -> validation_test v = true ->
  exists e, validate_params params validation_test msg kwargs = Raise e.
Proof.
  induction params as [|p ps IH]; simpl; intros Hin Hv Ht.
  - by apply elem_of_nil in Hin.
  - destruct (kwargs !! p) as [w|] eqn:Hp.
    + destruct (validation_test w) eqn:Hw; [eauto|].
      apply elem_of_cons in Hin as [->|Hin]; [congruence | by apply IH].
    + apply elem_of_cons in Hin as [->|Hin]; [congruence | by apply IH].
Qed.

Lemma validate_params_Ok :
  (forall param v, param ∈ params -> kwargs !! param = Some v -> validation_test v = false) ->
  validate_params params validation_test msg kwargs = Ok tt.
Proof.
  destruct (validate_params params validation_test msg kwargs) as [[]|e] eqn:E; [done|].
  apply validate_params_Raise_inv in E as (q & w & _ & Hin & Hq & Ht).
  intros H. rewrite (H q w Hin Hq) in Ht. discriminate.
Qed.
End validate_params.

(** The decorated composer, unfolded into its four stages. *)
Lemma _forest_hp_space_eq (name_func : string -> string) (kwargs : kwargs_t) :
  _forest_hp_space name_func kwargs =
  validate_params ["max_features"] max_features_test max_features_msg kwargs ≫= fun _ =>
  validate_params positive_params positive_test positive_msg kwargs ≫= fun _ =>
  validate_params ["ccp_alpha"] ccp_alpha_test ccp_alpha_msg kwargs ≫= fun _ =>
  _forest_hp_space_undecorated name_func kwargs.
Proof. reflexivity. Qed.

(** [any(...)] is a [bool], so [any(...) is not None] always holds: the
    guard of the composer is the test [bootstrap is False] alone. *)
Lemma bootstrap_guard (bootstrap oob_score max_samples : pylit) :
  is_False bootstrap && negb (is_None (py_any [oob_score; max_samples]))
  = is_False bootstrap.
Proof. simpl. apply andb_true_r. Qed.

Lemma _forest_hp_space_body_Raise_inv name_func a1 a2 a3 a4 a5 a6 a7 a8 a9 a10 a11 a12 a13 a14 a15 a16 e :
  _forest_hp_space_body name_func a1 a2 a3 a4 a5 a6 a7 a8 a9 a10 a11 a12 a13 a14 a15 a16
    = Raise e ->
  is_False a9 = true /\ e = ValueError (Text bootstrap_msg).
Proof.
  unfold _forest_hp_space_body. rewrite bootstrap_guard.
  destruct (is_False a9); [by intros [= <-] | discriminate].
Qed.

Lemma _forest_hp_space_Raise_inv (name_func : string -> string) (kwargs : kwargs_t) (e : exn) :
  _forest_hp_space name_func kwargs = Raise e -> forest_exn kwargs e.
Proof.
  rewrite _forest_hp_space_eq.
  intros [H|(_ & _ & H)]%bind_Raise_inv.
  { apply validate_params_Raise_inv in H as (p & v & -> & ->%list_elem_of_singleton & ? & ?).
    by constructor. }
  apply bind_Raise_inv in H as [H|(_ & _ & H)].
  { apply validate_params_Raise_inv in H as (p & v & -> & ? & ? & ?).
    by constructor. }
  apply bind_Raise_inv in H as [H|(_ & _ & H)].
  { apply validate_params_Raise_inv in H as (p & v & -> & ->%list_elem_of_singleton & ? & ?).
    by constructor. }
  unfold _forest_hp_space_undecorated in H. case_bool_decide.
  - apply _forest_hp_space_body_Raise_inv in H as [? ->]. by constructor.
  - injection H as <-. by constructor.
Qed.

Lemma entry_point_Raise_inv (f : family) name criterion (kwargs : kwargs_t) (e : exn) :
  entry_point f name criterion kwargs = Raise e -> forest_exn kwargs e.
Proof.
  rewrite entry_point_eq. intros [H|(hp & _ & H)]%bind_Raise_inv; [|discriminate].
  by eapply _forest_hp_space_Raise_inv.
Qed.

(** ** The space composer *)

Lemma _forest_hp_space_body_Ok_inv name_func a1 a2 a3 a4 a5 a6 a7 a8 a9 a10 a11 a12 a13 a14 a15 a16 d :
  _forest_hp_space_body name_func a1 a2 a3 a4 a5 a6 a7 a8 a9 a10 a11 a12 a13 a14 a15 a16
    = Ok d ->
  is_False a9 = false /\
  d = hp_space name_func a1 a2 a3 a4 a5 a6 a7 a8 a9 a10 a11 a12 a13 a14 a15 a16.
Proof.
  unfold _forest_hp_space_body. rewrite bootstrap_guard.
  destruct (is_False a9); [discriminate | by intros [= <-]].
Qed.

(** What a successful call of the decorated composer went through. *)
Lemma _forest_hp_space_Ok_inv (name_func : string -> string) (kwargs : kwargs_t) d :
  _forest_hp_space name_func kwargs = Ok d ->
  validate_params ["max_features"] max_features_test max_features_msg kwargs = Ok tt /\
  validate_params positive_params positive_test positive_msg kwargs = Ok tt /\
  validate_params ["ccp_alpha"] ccp_alpha_test ccp_alpha_msg kwargs = Ok tt /\
  is_False (arg kwargs "bootstrap" LNone) = false /\
  d = bind_signature (hp_space name_func) kwargs.
Proof.
  rewrite _forest_hp_space_eq.
  intros ([] & H1 & H)%bind_Ok_inv.
  apply bind_Ok_inv in H as ([] & H2 & H).
  apply bind_Ok_inv in H as ([] & H3 & H).
  unfold _forest_hp_space_undecorated in H. case_bool_decide; [|discriminate].
  apply _forest_hp_space_body_Ok_inv in H as [Hb ->]. done.
Qed.

Lemma entry_point_Ok_inv (f : family) name criterion (kwargs : kwargs_t) node :
  entry_point f name criterion kwargs = Ok node ->
  _forest_hp_space (_name f name) kwargs = Ok (bind_signature (hp_space (_name f name)) kwargs) /\
  node = scope_call (family_constructor f)
           (dict_set (bind_signature (hp_space (_name f name)) kwargs) "criterion"
              (py_or criterion (family_criterion f (_name f name "criterion")))).
Proof.
  rewrite entry_point_eq. intros (d & Hd & [= <-])%bind_Ok_inv.
  destruct (_forest_hp_space_Ok_inv _ _ _ Hd) as (_ & _ & _ & _ & ->). done.
Qed.

(** A call that passes only keywords of the signature, no value that a rule
    rejects and no [bootstrap=False] succeeds. *)
Lemma _forest_hp_space_Ok (name_func : string -> string) (kwargs : kwargs_t) :
  dom kwargs ⊆ list_to_set forest_params ->
  (forall v, kwargs !! "max_features" = Some v -> max_features_test v = false) ->
  (forall param v, param ∈ positive_params -> kwargs !! param = Some v -> positive_test v = false) ->
  (forall v, kwargs !! "ccp_alpha" = Some v -> ccp_alpha_test v = false) ->
  is_False (arg kwargs "bootstrap" LNone) = false ->
  _forest_hp_space name_func kwargs = Ok (bind_signature (hp_space name_func) kwargs).
Proof.
  intros Hdom H1 H2 H3 Hb. rewrite _forest_hp_space_eq.
  rewrite (validate_params_Ok ["max_features"]), bind_Ok.
  2:{ intros p v ->%list_elem_of_singleton. apply H1. }
  rewrite (validate_params_Ok positive_params), bind_Ok by done.
  rewrite (validate_params_Ok ["ccp_alpha"]), bind_Ok.
  2:{ intros p v ->%list_elem_of_singleton. apply H3. }
  unfold _forest_hp_space_undecorated. rewrite bool_decide_eq_true_2 by done.
  unfold bind_signature at 1, _forest_hp_space_body. rewrite bootstrap_guard, Hb. done.
Qed.

(** ** Validation of [ccp_alpha] *)

(** C1 (the code departs from the claim). The claim: an explicit float
    [ccp_alpha] raises exactly when it is negative. The rule as written
    tests [isinstance(param, float) and not param < 0], so a call that passes
    [ccp_alpha] alone, as a float, succeeds exactly when the float is
    negative, and otherwise raises the error whose text asks for a
    non-negative value: [ccp_alpha=0.0] raises and [ccp_alpha=-0.1] is
    accepted. *)
Theorem ccp_alpha_rule_inverted (f : family) (name : string) (criterion : pylit)
    (x : py_float) :
  match entry_point f name criterion {[ "ccp_alpha" := LFloat x ]} with
  | Ok _ => float_lt_0 x = true
  | Raise e =>
      float_lt_0 x = false /\
      e = ValueError (Format ccp_alpha_msg [LStr "ccp_alpha"; LFloat x])
  end.
Proof.
  destruct f; destruct x as [[]|[]| |[] m e]; vm_compute; auto.
Qed.

Example ccp_alpha_zero_raises :
  random_forest_classifier "rf" LNone {[ "ccp_alpha" := LFloat (float_lit 0.0) ]}
  = Raise (ValueError (Format ccp_alpha_msg [LStr "ccp_alpha"; LFloat (float_lit 0.0)])).
Proof. vm_compute. reflexivity. Qed.

Example ccp_alpha_negative_accepted :
  is_Ok (random_forest_classifier "rf" LNone {[ "ccp_alpha" := LFloat (float_lit (-0.1)) ]})
  = true.
Proof. vm_compute. reflexivity. Qed.

(** ** The check on [bootstrap] *)

(** C2 (the code departs from the claim). The claim: with [bootstrap=False]
    the call raises if and only if [oob_score] or [max_samples] is truthy.
    The guard compares [any([oob_score, max_samples])] with [None], which it
    never is: with [bootstrap=False] the call raises the configuration error
    whatever [oob_score] and [max_samples] are, their defaults included. *)
Theorem bootstrap_False_raises_whatever_oob (f : family) (name : string)
    (criterion oob_score max_samples : pylit) :
  entry_point f name criterion {[ "bootstrap" := LBool false ]}
    = Raise (ValueError (Text bootstrap_msg)) /\
  entry_point f name criterion
    (<[ "oob_score" := oob_score ]>
       (<[ "max_samples" := max_samples ]> {[ "bootstrap" := LBool false ]}))
    = Raise (ValueError (Text bootstrap_msg)).
Proof. destruct f; split; vm_compute; reflexivity. Qed.

(** The rest of the claim holds: [bootstrap=True] with [oob_score=True] is
    accepted, and [bootstrap=False] with [oob_score=True] raises. *)
Example bootstrap_True_oob_True_ok (f : family) :
  is_Ok (entry_point f "rf" LNone
           (<[ "oob_score" := LBool true ]> {[ "bootstrap" := LBool true ]})) = true.
Proof. destruct f; vm_compute; reflexivity. Qed.

(** C3 (the code departs from the claim). The claim: for [max_depth],
    [max_leaf_nodes] and [bootstrap] every override other than [None],
    [False] for [bootstrap] included, is in the returned mapping unmodified.
    Because of the guard above, no call that passes [bootstrap=False]
    returns a mapping at all. *)
Theorem bootstrap_False_never_returned (f : family) (name : string)
    (criterion : pylit) (kwargs : kwargs_t) :
  kwargs !! "bootstrap" = Some (LBool false) ->
  is_Ok (entry_point f name criterion kwargs) = false.
Proof.
  intros Hb. destruct (entry_point f name criterion kwargs) as [node|e] eqn:E; [|done].
  apply entry_point_Ok_inv in E as [E _].
  apply _forest_hp_space_Ok_inv in E as (_ & _ & _ & Hf & _).
  unfold arg in Hf. rewrite Hb in Hf. discriminate.
Qed.

Lemma bootstrap_False_never_returned_witness :
  is_Ok (extra_trees_classifier "et" LNone {[ "bootstrap" := LBool false ]}) = false.
Proof.
  apply (bootstrap_False_never_returned ETC "et" LNone {[ "bootstrap" := LBool false ]}).
  reflexivity.
Defined.

(** The selection itself is by [is None]: in the mapping of a successful
    call, [max_depth], [max_leaf_nodes] and [bootstrap] hold the caller's
    value unless it is [None] (or was not passed), and then the default
    distribution. *)
Lemma is_None_params_mapping (f : family) (name : string) (criterion : pylit)
    (kwargs : kwargs_t) (node : pyval) :
  entry_point f name criterion kwargs = Ok node ->
  result_get (Ok node) "max_depth"
    = Some (if_None_else (_forest_max_depth (_name f name "max_depth"))
              (arg kwargs "max_depth" LNone)) /\
  result_get (Ok node) "max_leaf_nodes"
    = Some (if_None_else (_forest_max_leaf_nodes (_name f name "max_leaf_nodes"))
              (arg kwargs "max_leaf_nodes" LNone)) /\
  result_get (Ok node) "bootstrap"
    = Some (if_None_else (_forest_bootstrap (_name f name "bootstrap"))
              (arg kwargs "bootstrap" LNone)).
Proof. intros [_ ->]%entry_point_Ok_inv. repeat split. Qed.

Example max_depth_0_kept (f : family) :
  result_get (entry_point f "rf" LNone {[ "max_depth" := LInt 0 ]}) "max_depth"
  = Some (Lit (LInt 0)).
Proof. destruct f; vm_compute; reflexivity. Qed.

(** ** The key set *)

Lemma is_Ok_inv {A : Type} (r : result A) : is_Ok r = true -> exists a, r = Ok a.
Proof. destruct r; [eauto | discriminate]. Qed.

(** C7. Every successful call of an entry point returns the deferred call
    of the family's constructor on a mapping whose keys are exactly the
    sixteen parameters of the composer followed by [criterion]: none
    missing, none extra, none twice. *)
Theorem entry_point_keys (f : family) (name : string) (criterion : pylit)
    (kwargs : kwargs_t) :
  is_Ok (entry_point f name criterion kwargs) = true ->
  exists d, entry_point f name criterion kwargs = Ok (scope_call (family_constructor f) d) /\
    dict_keys d = documented_keys /\ NoDup (dict_keys d).
Proof.
  intros [node E]%is_Ok_inv. rewrite E.
  apply entry_point_Ok_inv in E as [_ ->]. eexists. split; [reflexivity|].
  split; [reflexivity|]. change (NoDup documented_keys). compute_done.
Qed.

Lemma entry_point_keys_witness :
  exists d,
    random_forest_regressor "rf" (LStr "squared_error") {[ "n_estimators" := LInt 100 ]}
      = Ok (scope_call "sklearn_RandomForestRegressor" d) /\
    dict_keys d = documented_keys /\ NoDup (dict_keys d).
Proof.
  apply (entry_point_keys RFR "rf" (LStr "squared_error") {[ "n_estimators" := LInt 100 ]}).
  vm_compute. reflexivity.
Defined.

(** ** [random_state] *)

(** C10. In the mapping of every successful call, [random_state] holds the
    caller's value whenever one other than [None] was passed, [0] included,
    and the default distribution, the node [hp.randint] of upper bound 5
    labelled [<name>.<tag>random_state], exactly when none was passed or
    [None] was. *)
Theorem random_state_is_None_test (f : family) (name : string) (criterion : pylit)
    (kwargs : kwargs_t) :
  is_Ok (entry_point f name criterion kwargs) = true ->
  (forall v, kwargs !! "random_state" = Some v -> v <> LNone ->
     result_get (entry_point f name criterion kwargs) "random_state" = Some (Lit v)) /\
  (result_get (entry_point f name criterion kwargs) "random_state"
     = Some (hp_randint (name +:+ "." +:+ family_tag f +:+ "random_state") 5)
   <-> kwargs !! "random_state" = None \/ kwargs !! "random_state" = Some LNone).
Proof.
  intros [node E]%is_Ok_inv. rewrite E.
  apply entry_point_Ok_inv in E as [_ ->].
  change (result_get _ "random_state")
    with (Some (if_None_else (hp_randint (name +:+ "." +:+ family_tag f +:+ "random_state") 5)
                  (arg kwargs "random_state" LNone))).
  unfold arg. destruct (kwargs !! "random_state") as [v|]; simpl.
  - split.
    + intros ? [= <-] Hv. by destruct v.
    + destruct v; unfold if_None_else; simpl;
        split; intros H; auto; try discriminate; destruct H; discriminate.
  - split; [intros ? [=] | split; [auto | reflexivity]].
Qed.

Lemma random_state_is_None_test_witness :
  (forall v, ({[ "random_state" := LInt 0 ]} : gmap string pylit) !! "random_state" = Some v ->
     v <> LNone ->
     result_get (extra_trees_regressor "et" LNone {[ "random_state" := LInt 0 ]}) "random_state"
       = Some (Lit v)) /\
  (result_get (extra_trees_regressor "et" LNone {[ "random_state" := LInt 0 ]}) "random_state"
     = Some (hp_randint ("et" +:+ "." +:+ family_tag ETR +:+ "random_state") 5)
   <-> ({[ "random_state" := LInt 0 ]} : gmap string pylit) !! "random_state" = None \/
       ({[ "random_state" := LInt 0 ]} : gmap string pylit) !! "random_state" = Some LNone).
Proof.
  apply (random_state_is_None_test ETR "et" LNone {[ "random_state" := LInt 0 ]}).
  vm_compute. reflexivity.
Defined.

(** With no override the entry is that node, under the closure's name. *)
Example random_state_default_node :
  result_get (extra_trees_regressor "et" LNone ∅) "random_state"
  = Some (hp_randint "et.etr_random_state" 5).
Proof. vm_compute. reflexivity. Qed.

Example random_state_0_kept :
  result_get (extra_trees_regressor "et" LNone {[ "random_state" := LInt 0 ]}) "random_state"
  = Some (Lit (LInt 0)).
Proof. vm_compute. reflexivity. Qed.

(** ** The rules on [max_features] and on the positive floats *)

(** The three messages differ, so the message of an error tells its rule. *)
Lemma validation_msgs_NoDup : NoDup [max_features_msg; positive_msg; ccp_alpha_msg].
Proof. compute_done. Qed.

Lemma forest_exn_max_features_inv (kwargs : kwargs_t) (args : list pylit) :
  forest_exn kwargs (ValueError (Format max_features_msg args)) ->
  exists v, args = [LStr "max_features"; v] /\
    kwargs !! "max_features" = Some v /\ max_features_test v = true.
Proof.
  remember (ValueError (Format max_features_msg args)) as e eqn:He.
  intros E. destruct E as [v|p v|v| |]; try discriminate He.
  injection He as <-. eauto.
Qed.

Lemma forest_exn_positive_inv (kwargs : kwargs_t) (args : list pylit) :
  forest_exn kwargs (ValueError (Format positive_msg args)) ->
  exists param v, args = [LStr param; v] /\ param ∈ positive_params /\
    kwargs !! param = Some v /\ positive_test v = true.
Proof.
  remember (ValueError (Format positive_msg args)) as e eqn:He.
  intros E. destruct E as [v|p v|v| |]; try discriminate He.
  injection He as <-. eauto 10.
Qed.

(** C5. When [max_features] is passed as a string that is not ["auto"],
    ["sqrt"] or ["log2"], every call raises the error of the first rule,
    whose text names [max_features] and the string; when it is one of the
    three, no call raises that error. *)
Theorem max_features_string_rule (f : family) (name : string) (criterion : pylit)
    (kwargs : kwargs_t) (s : string) :
  kwargs !! "max_features" = Some (LStr s) ->
  (s ∉ ["auto"; "sqrt"; "log2"] ->
     entry_point f name criterion kwargs
       = Raise (ValueError (Format max_features_msg [LStr "max_features"; LStr s])) /\
     exn_message (ValueError (Format max_features_msg [LStr "max_features"; LStr s]))
       = Some ("Invalid parameter 'max_features' with value '" +:+ s +:+
               "'. Value must be in ['auto', 'sqrt', 'log2'].")) /\
  (s ∈ ["auto"; "sqrt"; "log2"] ->
     forall args,
       entry_point f name criterion kwargs <> Raise (ValueError (Format max_features_msg args))).
Proof.
  intros Hs. split.
  - intros Hnot. split; [|reflexivity].
    rewrite entry_point_eq, _forest_hp_space_eq.
    rewrite (validate_params_head _ _ _ _ _ _ Hs); [reflexivity|].
    simpl. by rewrite bool_decide_eq_false_2.
  - intros Hin args E. apply entry_point_Raise_inv, forest_exn_max_features_inv in E
      as (v & _ & Hv & Ht).
    rewrite Hs in Hv. injection Hv as <-. simpl in Ht.
    by rewrite bool_decide_eq_true_2 in Ht.
Qed.

Lemma max_features_string_rule_witness :
  (random_forest_classifier "rf" LNone {[ "max_features" := LStr "invalid" ]}
     = Raise (ValueError (Format max_features_msg [LStr "max_features"; LStr "invalid"])) /\
   exn_message (ValueError (Format max_features_msg [LStr "max_features"; LStr "invalid"]))
     = Some "Invalid parameter 'max_features' with value 'invalid'. Value must be in ['auto', 'sqrt', 'log2'].").
Proof.
  apply (max_features_string_rule RFC "rf" LNone {[ "max_features" := LStr "invalid" ]} "invalid").
  - reflexivity.
  - vm_compute. intros H. repeat (apply elem_of_cons in H as [H|H]; [discriminate H|]).
    by apply elem_of_nil in H.
Defined.

Example max_features_sqrt_ok (f : family) :
  is_Ok (entry_point f "rf" LNone {[ "max_features" := LStr "sqrt" ]}) = true.
Proof. destruct f; vm_compute; reflexivity. Qed.

(** C6. For each of the seven parameters of the second rule: a call that
    passes it alone, as a float, raises exactly when the float is not
    greater than 0, and then with the error of that rule for that parameter;
    in any call where it is a float not greater than 0 the call raises a
    validation error; and the error of that rule for that parameter is only
    ever raised for a float not greater than 0, so never for an [int] or
    [None]. *)
Theorem positive_float_rule (f : family) (name : string) (criterion : pylit)
    (param : string) :
  param ∈ positive_params ->
  (forall x,
     match entry_point f name criterion {[ param := LFloat x ]} with
     | Ok _ => float_gt_0 x = true
     | Raise e =>
         float_gt_0 x = false /\ e = ValueError (Format positive_msg [LStr param; LFloat x])
     end) /\
  (forall (kwargs : kwargs_t) x,
     kwargs !! param = Some (LFloat x) -> float_gt_0 x = false ->
     exists e, entry_point f name criterion kwargs = Raise e /\ validation_error kwargs e) /\
  (forall (kwargs : kwargs_t) v,
     entry_point f name criterion kwargs = Raise (ValueError (Format positive_msg [LStr param; v])) ->
     exists x, v = LFloat x /\ kwargs !! param = Some v /\ float_gt_0 x = false).
Proof.
  intros Hin. split; [|split].
  - intros x. unfold positive_params in Hin.
    repeat (apply elem_of_cons in Hin as [->|Hin]);
      [..|by apply elem_of_nil in Hin];
      destruct f; destruct x as [[]|[]| |[] m e]; vm_compute; auto.
  - intros kwargs x Hx Hgt.
    destruct (validate_params_Raise positive_params positive_test positive_msg
                kwargs param (LFloat x) Hin Hx) as [e2 He2].
    { simpl. by rewrite Hgt. }
    rewrite entry_point_eq, _forest_hp_space_eq.
    destruct (validate_params ["max_features"] _ _ kwargs) as [[]|e1] eqn:He1.
    + rewrite bind_Ok, He2. exists e2. split; [reflexivity|].
      apply validate_params_Raise_inv in He2 as (p & v & -> & _ & Hp & _).
      exists positive_msg, p, v. split; [done|]. split; [|done].
      rewrite !elem_of_cons; auto.
    + exists e1. split; [reflexivity|].
      apply validate_params_Raise_inv in He1 as (p & v & -> & _ & Hp & _).
      exists max_features_msg, p, v. split; [done|]. split; [|done].
      rewrite !elem_of_cons; auto.
  - intros kwargs v E.
    apply entry_point_Raise_inv, forest_exn_positive_inv in E
      as (p & w & [= <- <-] & _ & Hp & Ht).
    destruct v as [| | |x|]; try discriminate. exists x. repeat split; [done|].
    simpl in Ht. by destruct (float_gt_0 x).
Qed.

Lemma positive_float_rule_witness :
  match random_forest_classifier "rf" LNone {[ "n_estimators" := LFloat (float_lit (-1.0)) ]} with
  | Ok _ => float_gt_0 (float_lit (-1.0)) = true
  | Raise e =>
      float_gt_0 (float_lit (-1.0)) = false /\
      e = ValueError (Format positive_msg [LStr "n_estimators"; LFloat (float_lit (-1.0))])
  end.
Proof.
  apply (positive_float_rule RFC "rf" LNone "n_estimators").
  apply list_elem_of_here.
Defined.

Example n_estimators_negative_float_raises :
  random_forest_classifier "rf" LNone {[ "n_estimators" := LFloat (float_lit (-1.0)) ]}
  = Raise (ValueError (Format positive_msg [LStr "n_estimators"; LFloat (float_lit (-1.0))])).
Proof. vm_compute. reflexivity. Qed.

Example n_estimators_int_accepted :
  result_get (random_forest_classifier "rf" LNone {[ "n_estimators" := LInt 100 ]}) "n_estimators"
  = Some (Lit (LInt 100)).
Proof. vm_compute. reflexivity. Qed.

(** ** The parameters defaulted with [or] *)

Lemma or_defaulted_positive (param : string) (gen : string -> pyval) :
  (param, gen) ∈ or_defaulted -> param ∈ positive_params.
Proof.
  unfold or_defaulted, positive_params. rewrite !elem_of_cons.
  intros H. repeat (destruct H as [[= -> _]|H]; [auto 10|]). by apply elem_of_nil in H.
Qed.

(** The floats that are false are the two zeros, and neither is greater
    than 0. *)
Lemma falsy_float_not_gt_0 (x : py_float) :
  py_truthy (LFloat x) = false -> float_gt_0 x = false.
Proof. by destruct x as [[]|[]| |[] m e]. Qed.

Lemma falsy_str (s : string) : py_truthy (LStr s) = false -> s = "".
Proof. by destruct s. Qed.

(** C4, counterexample. The claim has the call succeed for the override
    [0.0]; [min_samples_split=0.0] is a float not greater than 0, and the
    second rule rejects it. *)
Lemma falsy_float_override_raises :
  py_truthy (LFloat (float_lit 0.0)) = false /\
  random_forest_classifier "rf" LNone {[ "min_samples_split" := LFloat (float_lit 0.0) ]}
  = Raise (ValueError (Format positive_msg
             [LStr "min_samples_split"; LFloat (float_lit 0.0)])).
Proof. split; vm_compute; reflexivity. Qed.

(** [max_features=""] is likewise rejected, by the first rule. *)
Example max_features_empty_raises :
  random_forest_classifier "rf" LNone {[ "max_features" := LStr "" ]}
  = Raise (ValueError (Format max_features_msg [LStr "max_features"; LStr ""])).
Proof. vm_compute. reflexivity. Qed.

(** A float that is not greater than 0, for a parameter of the second
    rule, makes every call raise a validation error: that of the second
    rule, unless the first rule has already failed. *)
Lemma positive_violation_raises (f : family) (name : string) (criterion : pylit)
    (kwargs : kwargs_t) (param : string) (x : py_float) :
  param ∈ positive_params -> kwargs !! param = Some (LFloat x) -> float_gt_0 x = false ->
  exists e, entry_point f name criterion kwargs = Raise e /\ validation_error kwargs e.
Proof.
  intros Hin Hx Hgt.
  destruct (validate_params_Raise positive_params positive_test positive_msg
              kwargs param (LFloat x) Hin Hx) as [e2 He2].
  { simpl. by rewrite Hgt. }
  rewrite entry_point_eq, _forest_hp_space_eq.
  destruct (validate_params ["max_features"] _ _ kwargs) as [[]|e1] eqn:He1.
  - rewrite bind_Ok, He2. exists e2. split; [reflexivity|].
    apply validate_params_Raise_inv in He2 as (p & v & -> & _ & Hp & _).
    exists positive_msg, p, v. split; [done|]. split; [|done].
    rewrite !elem_of_cons; auto.
  - exists e1. split; [reflexivity|].
    apply validate_params_Raise_inv in He1 as (p & v & -> & _ & Hp & _).
    exists max_features_msg, p, v. split; [done|]. split; [|done].
    rewrite !elem_of_cons; auto.
Qed.

(** The empty string for [max_features] makes every call raise the error
    of the first rule. *)
Lemma max_features_empty_violation (f : family) (name : string) (criterion : pylit)
    (kwargs : kwargs_t) :
  kwargs !! "max_features" = Some (LStr "") ->
  exists e, entry_point f name criterion kwargs = Raise e /\ validation_error kwargs e.
Proof.
  intros Hk. exists (ValueError (Format max_features_msg [LStr "max_features"; LStr ""])).
  split.
  - rewrite entry_point_eq, _forest_hp_space_eq.
    by rewrite (validate_params_head _ _ _ _ _ _ Hk).
  - exists max_features_msg, "max_features", (LStr ""). split; [done|]. split; [|done].
    rewrite !elem_of_cons; auto.
Qed.

(** C4, as amended. For [min_samples_split], [min_samples_leaf],
    [max_features] and [min_impurity_decrease], and an override that is
    false in Python:
    - if it is a float ([0.0] or [-0.0]), or a string (then [""]) for
      [max_features], every call that passes it raises a validation error
      (one of the three messages, formatted with a parameter the caller
      passed and its value);
    - otherwise ([0], [False], [None], or [""] for the other three) the call
      that passes it alone succeeds;
    - whenever a call that passes it succeeds, the mapping holds the
      generated default distribution for the parameter, not the override;
    - that default is a stochastic node whose first label is the name it is
      generated for, so it is never a literal. *)
Theorem falsy_override_defaulted (f : family) (name : string) (criterion : pylit)
    (param : string) (gen : string -> pyval) (v : pylit) :
  (param, gen) ∈ or_defaulted ->
  py_truthy v = false ->
  (isinstance_float v = true \/ (param = "max_features" /\ isinstance_str v = true) ->
   forall kwargs : kwargs_t,
     kwargs !! param = Some v ->
     exists e, entry_point f name criterion kwargs = Raise e /\ validation_error kwargs e) /\
  (isinstance_float v = false -> (param = "max_features" -> isinstance_str v = false) ->
   is_Ok (entry_point f name criterion {[ param := v ]}) = true) /\
  (forall kwargs : kwargs_t,
     kwargs !! param = Some v -> is_Ok (entry_point f name criterion kwargs) = true ->
     result_get (entry_point f name criterion kwargs) param = Some (gen (_name f name param))) /\
  (forall label, exists sub_labels, labels (gen label) = label :: sub_labels).
Proof.
  intros Hin Hv. split; [|split; [|split]].
  - intros Hrej kwargs Hk. destruct Hrej as [Hf|[-> Hs]].
    + destruct v as [| | |x|]; try discriminate.
      apply (positive_violation_raises f name criterion kwargs param x);
        [by eapply or_defaulted_positive | done | by apply falsy_float_not_gt_0].
    + destruct v as [| | | |s]; try discriminate. apply falsy_str in Hv as ->.
      by apply max_features_empty_violation.
  - intros Hf Hs. unfold or_defaulted in Hin. rewrite !elem_of_cons in Hin.
    repeat (destruct Hin as [[= -> _]|Hin]); [..|by apply elem_of_nil in Hin];
      destruct v as [|[]|n| |s]; try discriminate;
      try (specialize (Hs eq_refl); discriminate);
      try (apply falsy_str in Hv as ->);
      try (simpl in Hv; apply negb_false_iff, Z.eqb_eq in Hv as ->);
      destruct f; vm_compute; reflexivity.
  - intros kwargs Hk [node E]%is_Ok_inv. rewrite E.
    apply entry_point_Ok_inv in E as [_ ->].
    unfold or_defaulted in Hin. rewrite !elem_of_cons in Hin.
    repeat (destruct Hin as [[= -> ->]|Hin]); [..|by apply elem_of_nil in Hin].
    + change (result_get _ "min_samples_split")
        with (Some (py_or (arg kwargs "min_samples_split" LNone)
                      (_forest_min_samples_split (_name f name "min_samples_split")))).
      unfold arg, py_or. rewrite Hk. simpl. by rewrite Hv.
    + change (result_get _ "min_samples_leaf")
        with (Some (py_or (arg kwargs "min_samples_leaf" LNone)
                      (_forest_min_samples_leaf (_name f name "min_samples_leaf")))).
      unfold arg, py_or. rewrite Hk. simpl. by rewrite Hv.
    + change (result_get _ "max_features")
        with (Some (py_or (arg kwargs "max_features" LNone)
                      (_forest_max_features (_name f name "max_features")))).
      unfold arg, py_or. rewrite Hk. simpl. by rewrite Hv.
    + change (result_get _ "min_impurity_decrease")
        with (Some (py_or (arg kwargs "min_impurity_decrease" LNone)
                      (_forest_min_impurity_decrease (_name f name "min_impurity_decrease")))).
      unfold arg, py_or. rewrite Hk. simpl. by rewrite Hv.
  - intros label. unfold or_defaulted in Hin. rewrite !elem_of_cons in Hin.
    repeat (destruct Hin as [[= _ ->]|Hin]); [..|by apply elem_of_nil in Hin];
      eexists; reflexivity.
Qed.

Lemma falsy_override_defaulted_witness :
  is_Ok (extra_trees_classifier "et" LNone {[ "min_samples_leaf" := LInt 0 ]}) = true /\
  result_get (extra_trees_classifier "et" LNone {[ "min_samples_leaf" := LInt 0 ]})
    "min_samples_leaf"
  = Some (_forest_min_samples_leaf (_name ETC "et" "min_samples_leaf")).
Proof.
  destruct (falsy_override_defaulted ETC "et" LNone "min_samples_leaf"
              _forest_min_samples_leaf (LInt 0)) as (_ & Hok & Hget & _).
  - apply list_elem_of_further, list_elem_of_here.
  - reflexivity.
  - split.
    + apply Hok; [reflexivity | discriminate].
    + apply Hget; [reflexivity | apply Hok; [reflexivity | discriminate]].
Defined.

(** The rejected override of the counterexample, in a call with other
    keyword arguments; and the default the accepted one is replaced by. *)
Example falsy_float_with_others_raises :
  extra_trees_regressor "et" LNone
    {[ "min_impurity_decrease" := LFloat (float_lit 0.0); "n_jobs" := LInt 2 ]}
  = Raise (ValueError (Format positive_msg
             [LStr "min_impurity_decrease"; LFloat (float_lit 0.0)])).
Proof. vm_compute. reflexivity. Qed.

Example min_samples_leaf_0_defaulted :
  result_get (extra_trees_classifier "et" LNone {[ "min_samples_leaf" := LInt 0 ]})
    "min_samples_leaf"
  = Some (hp_choice "et.etc_min_samples_leaf"
            [Lit (LInt 1);
             scope_int (hp_qloguniform "et.etc_min_samples_leaf.gt1"
                          (np_log (float_lit 1.5)) (np_log (float_lit 50.5)) 1)]).
Proof. vm_compute. reflexivity. Qed.

(** ** Leaf names *)

Lemma append_assoc (s1 s2 s3 : string) : (s1 +:+ s2) +:+ s3 = s1 +:+ (s2 +:+ s3).
Proof.
  induction s1 as [|c s1 IH]; [reflexivity|].
  change (String c ((s1 +:+ s2) +:+ s3) = String c (s1 +:+ s2 +:+ s3)).
  by rewrite IH.
Qed.

(** A sub-name of a generator is again a name of the family's closure. *)
Lemma _name_append (f : family) (name msg suffix : string) :
  _name f name msg +:+ suffix = _name f name (msg +:+ suffix).
Proof. unfold _name. by rewrite !append_assoc. Qed.

#[global] Instance _name_inj (f : family) (name : string) : Inj (=) (=) (_name f name).
Proof.
  intros p q H. unfold _name in H.
  apply (inj (String.append name)) in H.
  apply (inj (String.append ".")) in H.
  by apply (inj (String.append (family_tag f))) in H.
Qed.

Lemma default_labels (f : family) (name : string) :
  result_labels (entry_point f name LNone ∅) = _name f name <$> leaf_params.
Proof.
  transitivity
    [_name f name "n_estimators"; _name f name "max_depth";
     _name f name "min_samples_split";
     _name f name "min_samples_leaf"; _name f name "min_samples_leaf" +:+ ".gt1";
     _name f name "max_features"; _name f name "max_features" +:+ ".frac";
     _name f name "max_leaf_nodes"; _name f name "min_impurity_decrease";
     _name f name "bootstrap"; _name f name "random_state"; _name f name "criterion"].
  - destruct f; reflexivity.
  - by rewrite !_name_append.
Qed.

(** C8. In a call with no override, the labels of the stochastic nodes are
    the closure's names of the twelve parameter names and sub-names above,
    each the base name, a dot, the family tag and the (sub-)name, so a
    function of these three alone, and they are pairwise distinct. *)
Theorem default_labels_distinct (f : family) (name : string) :
  result_labels (entry_point f name LNone ∅)
    = (fun param => name +:+ "." +:+ family_tag f +:+ param) <$> leaf_params /\
  NoDup (result_labels (entry_point f name LNone ∅)).
Proof.
  rewrite default_labels. split; [reflexivity|].
  apply (NoDup_fmap_2 (_name f name)). compute_done.
Qed.

(** Overrides are literals, which carry no label: the labels of any call
    are among those of the call with no override. *)
Lemma labels_py_or (value : pylit) (dflt : pyval) : labels (py_or value dflt) ⊆ labels dflt.
Proof. unfold py_or. destruct (py_truthy value); [apply list_subseteq_nil | done]. Qed.

Lemma labels_if_None_else (dflt : pyval) (value : pylit) :
  labels (if_None_else dflt value) ⊆ labels dflt.
Proof. unfold if_None_else. destruct (is_None value); [done | apply list_subseteq_nil]. Qed.

Lemma result_labels_subseteq (f : family) (name : string) (criterion : pylit)
    (kwargs : kwargs_t) :
  result_labels (entry_point f name criterion kwargs) ⊆ _name f name <$> leaf_params.
Proof.
  destruct (entry_point f name criterion kwargs) as [node|e] eqn:E;
    [|apply list_subseteq_nil].
  apply entry_point_Ok_inv in E as [_ ->].
  intros l. unfold result_labels.
  change (labels _) with
    (labels (py_or (arg kwargs "n_estimators" LNone)
               (_forest_n_estimators (_name f name "n_estimators"))) ++
     labels (if_None_else (_forest_max_depth (_name f name "max_depth"))
               (arg kwargs "max_depth" LNone)) ++
     labels (py_or (arg kwargs "min_samples_split" LNone)
               (_forest_min_samples_split (_name f name "min_samples_split"))) ++
     labels (py_or (arg kwargs "min_samples_leaf" LNone)
               (_forest_min_samples_leaf (_name f name "min_samples_leaf"))) ++
     labels (py_or (arg kwargs "min_weight_fraction_leaf" LNone)
               (_forest_min_weight_fraction_leaf (_name f name "min_weight_fraction_leaf"))) ++
     labels (py_or (arg kwargs "max_features" LNone)
               (_forest_max_features (_name f name "max_features"))) ++
     labels (if_None_else (_forest_max_leaf_nodes (_name f name "max_leaf_nodes"))
               (arg kwargs "max_leaf_nodes" LNone)) ++
     labels (py_or (arg kwargs "min_impurity_decrease" LNone)
               (_forest_min_impurity_decrease (_name f name "min_impurity_decrease"))) ++
     labels (if_None_else (_forest_bootstrap (_name f name "bootstrap"))
               (arg kwargs "bootstrap" LNone)) ++
     labels (if_None_else (_forest_random_state (_name f name "random_state"))
               (arg kwargs "random_state" LNone)) ++
     labels (py_or criterion (family_criterion f (_name f name "criterion"))) ++ []) at 1.
  rewrite !elem_of_app, elem_of_nil.
  intros [H|[H|[H|[H|[H|[H|[H|[H|[H|[H|[H|[]]]]]]]]]]]];
    (apply labels_py_or in H || apply labels_if_None_else in H);
    destruct f; cbn -[_name String.append] in H; rewrite ?_name_append in H;
    repeat (apply elem_of_cons in H as [->|H]);
    try (by apply elem_of_nil in H);
    apply list_elem_of_fmap_2; compute_done.
Qed.

(** C9. With the same base name, whatever the overrides, every label of a
    random forest classifier space starts with the base name and [.rfc_],
    every label of an extra trees classifier space with the base name and
    [.etc_], and no label belongs to both. *)
Theorem classifier_labels_disjoint (name : string) (criterion1 criterion2 : pylit)
    (kwargs1 kwargs2 : kwargs_t) :
  (forall l, l ∈ result_labels (random_forest_classifier name criterion1 kwargs1) ->
     exists param, l = name +:+ ".rfc_" +:+ param) /\
  (forall l, l ∈ result_labels (extra_trees_classifier name criterion2 kwargs2) ->
     exists param, l = name +:+ ".etc_" +:+ param) /\
  result_labels (random_forest_classifier name criterion1 kwargs1)
    ## result_labels (extra_trees_classifier name criterion2 kwargs2).
Proof.
  assert (Hrfc : forall l, l ∈ result_labels (random_forest_classifier name criterion1 kwargs1) ->
            exists param, l = name +:+ ".rfc_" +:+ param).
  { intros l Hl. apply (result_labels_subseteq RFC) in Hl.
    apply list_elem_of_fmap in Hl as (p & -> & _). by exists p. }
  assert (Hetc : forall l, l ∈ result_labels (extra_trees_classifier name criterion2 kwargs2) ->
            exists param, l = name +:+ ".etc_" +:+ param).
  { intros l Hl. apply (result_labels_subseteq ETC) in Hl.
    apply list_elem_of_fmap in Hl as (p & -> & _). by exists p. }
  split; [exact Hrfc|]. split; [exact Hetc|].
  intros l [p ->]%Hrfc [q Hq]%Hetc.
  apply (inj (String.append name)) in Hq. discriminate Hq.
Qed.

Lemma classifier_labels_disjoint_witness :
  result_labels (random_forest_classifier "rf" LNone ∅)
    ## result_labels (extra_trees_classifier "rf" LNone ∅).
Proof. apply (classifier_labels_disjoint "rf" LNone LNone ∅ ∅). Defined.

(** Both sets have their twelve labels there, so the disjointness is not
    that of empty sets. *)
Example rf_labels_length :
  length (result_labels (random_forest_classifier "rf" LNone ∅)) = 12 /\
  length (result_labels (extra_trees_classifier "rf" LNone ∅)) = 12.
Proof. split; vm_compute; reflexivity. Qed.

(** * Further properties *)

Set Warnings "-clear-no-such-hyp".

(** ** Names do not collide *)

Lemma proper_suffixes_app (y : ascii) (c d : string) :
  d ∈ proper_suffixes (String y (c +:+ d)).
Proof.
  revert y. induction c as [|z c IH]; intros y.
  - apply list_elem_of_here.
  - apply list_elem_of_further. apply IH.
Qed.

(** Two concatenations are equal only if they split at the same place, or
    one right part is a proper suffix of the other. *)
Lemma append_eq_inv (a b c d : string) :
  a +:+ b = c +:+ d ->
  (a = c /\ b = d) \/ d ∈ proper_suffixes b \/ b ∈ proper_suffixes d.
Proof.
  revert c. induction a as [|x a IH]; intros [|y c] H.
  - by left.
  - right; left. change (b = String y (c +:+ d)) in H. rewrite H.
    apply proper_suffixes_app.
  - right; right. change (String x (a +:+ b) = d) in H. rewrite <- H.
    apply proper_suffixes_app.
  - change (String x (a +:+ b) = String y (c +:+ d)) in H. injection H as -> H.
    apply IH in H as [[-> ->]|H]; auto.
Qed.

(** No leaf suffix is a proper suffix of another, and a leaf suffix tells
    its family and its (sub-)name. *)
Lemma leaf_suffixes_no_overlap :
  Forall (fun s => Forall (fun s' => s' ∉ proper_suffixes s) leaf_suffixes) leaf_suffixes.
Proof. compute_done. Qed.

Lemma leaf_suffix_elem (f : family) (param : string) :
  param ∈ leaf_params -> leaf_suffix f param ∈ leaf_suffixes.
Proof.
  intros Hp. unfold leaf_suffixes. apply list_elem_of_bind. exists f. split.
  - by apply list_elem_of_fmap_2.
  - destruct f; rewrite !elem_of_cons; auto.
Qed.

Lemma leaf_suffix_inj (f1 f2 : family) (p q : string) :
  leaf_suffix f1 p = leaf_suffix f2 q -> f1 = f2 /\ p = q.
Proof.
  destruct f1, f2; try discriminate; intros H;
    (split; [reflexivity|]); by injection H.
Qed.

(** A leaf name tells its family, its base name and its (sub-)name. *)
Lemma _name_leaf_inj (f1 f2 : family) (name1 name2 p q : string) :
  p ∈ leaf_params -> q ∈ leaf_params ->
  _name f1 name1 p = _name f2 name2 q ->
  f1 = f2 /\ name1 = name2 /\ p = q.
Proof.
  intros Hp Hq H.
  change (name1 +:+ leaf_suffix f1 p = name2 +:+ leaf_suffix f2 q) in H.
  pose proof leaf_suffixes_no_overlap as Hno.
  rewrite Forall_forall in Hno.
  apply append_eq_inv in H as [[-> H]|[H|H]].
  - apply leaf_suffix_inj in H as [-> ->]. done.
  - specialize (Hno _ (leaf_suffix_elem f1 p Hp)). rewrite Forall_forall in Hno.
    by apply Hno in H; [|apply leaf_suffix_elem].
  - specialize (Hno _ (leaf_suffix_elem f2 q Hq)). rewrite Forall_forall in Hno.
    by apply Hno in H; [|apply leaf_suffix_elem].
Qed.

Lemma leaf_params_NoDup : NoDup leaf_params.
Proof. compute_done. Qed.

(** The leaf names of distinct spaces (family and base name) are all
    distinct. *)
Lemma spaces_labels_NoDup (spaces : list (family * string)) :
  NoDup spaces ->
  NoDup (fn ← spaces; _name fn.1 fn.2 <$> leaf_params).
Proof.
  induction 1 as [|[f name] spaces Hnotin _ IH]; [constructor|].
  change (NoDup ((_name f name <$> leaf_params) ++
                 (fn ← spaces; _name fn.1 fn.2 <$> leaf_params))).
  apply NoDup_app. split; [|split; [|exact IH]].
  - apply (NoDup_fmap_2 (_name f name)), leaf_params_NoDup.
  - intros l (p & -> & Hp)%list_elem_of_fmap ([f' name'] & Hl & Hin)%list_elem_of_bind.
    apply list_elem_of_fmap in Hl as (q & Hl & Hq).
    apply _name_leaf_inj in Hl as (-> & -> & _); done.
Qed.

Lemma default_call_Ok (f : family) (name : string) :
  is_Ok (entry_point f name LNone ∅) = true.
Proof. destruct f; vm_compute; reflexivity. Qed.

(** X1. Two spaces share a leaf name only if they are of the same family
    and have the same base name: whatever the base names (one may extend
    the other, or contain a family tag) and whatever the overrides, the
    labels of two calls that differ in family or in base name are
    disjoint. *)
Theorem labels_disjoint_unless_same_space (f1 f2 : family) (name1 name2 : string)
    (criterion1 criterion2 : pylit) (kwargs1 kwargs2 : kwargs_t) :
  (f1, name1) <> (f2, name2) ->
  result_labels (entry_point f1 name1 criterion1 kwargs1)
    ## result_labels (entry_point f2 name2 criterion2 kwargs2).
Proof.
  intros Hne l H1 H2.
  apply result_labels_subseteq, list_elem_of_fmap in H1 as (p & -> & Hp).
  apply result_labels_subseteq, list_elem_of_fmap in H2 as (q & H & Hq).
  apply _name_leaf_inj in H as (-> & -> & _); done.
Qed.

Lemma labels_disjoint_unless_same_space_witness :
  result_labels (random_forest_classifier "rf" LNone ∅)
    ## result_labels (random_forest_classifier "rf.rfc_min_samples_leaf" LNone ∅).
Proof.
  apply (labels_disjoint_unless_same_space RFC RFC "rf" "rf.rfc_min_samples_leaf"
           LNone LNone ∅ ∅).
  discriminate.
Defined.

(** ** The aggregates *)

Lemma aggregate_eq (f1 f2 : family) (name1 name2 : string) :
  exists d1 d2,
    (entry_point f1 name1 LNone ∅ ≫= fun rf =>
     entry_point f2 name2 LNone ∅ ≫= fun et => Ok [rf; et])
    = Ok [scope_call (family_constructor f1) d1; scope_call (family_constructor f2) d2] /\
    dict_keys d1 = documented_keys /\ dict_keys d2 = documented_keys /\
    flat_map labels [scope_call (family_constructor f1) d1; scope_call (family_constructor f2) d2]
    = (_name f1 name1 <$> leaf_params) ++ (_name f2 name2 <$> leaf_params).
Proof.
  destruct (is_Ok_inv _ (default_call_Ok f1 name1)) as [n1 E1].
  destruct (is_Ok_inv _ (default_call_Ok f2 name2)) as [n2 E2].
  pose proof (default_labels f1 name1) as L1. pose proof (default_labels f2 name2) as L2.
  rewrite E1 in L1. rewrite E2 in L2. rewrite E1, E2. simpl in L1, L2.
  apply entry_point_Ok_inv in E1 as [_ ->]. apply entry_point_Ok_inv in E2 as [_ ->].
  eexists _, _. split; [reflexivity|]. split; [reflexivity|]. split; [reflexivity|].
  change (flat_map labels [?a; ?b]) with (labels a ++ labels b ++ []).
  by rewrite app_nil_r, L1, L2.
Qed.

(** X2. [_forest_classifiers] never raises: for every base name it returns
    exactly two nodes, the random forest classifier then the extra trees
    classifier, each on a mapping with the documented keys; their labels are
    the twelve leaf names under [<name>.random_forest.rfc_] followed by the
    twelve under [<name>.extra_trees.etc_], all distinct. *)
Theorem _forest_classifiers_spec (name : string) :
  exists d1 d2,
    _forest_classifiers name
      = Ok [scope_call "sklearn_RandomForestClassifier" d1;
            scope_call "sklearn_ExtraTreesClassifier" d2] /\
    dict_keys d1 = documented_keys /\ dict_keys d2 = documented_keys /\
    results_labels (_forest_classifiers name)
      = ((fun param => name +:+ ".random_forest.rfc_" +:+ param) <$> leaf_params) ++
        ((fun param => name +:+ ".extra_trees.etc_" +:+ param) <$> leaf_params) /\
    NoDup (results_labels (_forest_classifiers name)).
Proof.
  destruct (aggregate_eq RFC ETC (name +:+ ".random_forest") (name +:+ ".extra_trees"))
    as (d1 & d2 & E & K1 & K2 & L).
  change (_forest_classifiers name = Ok [scope_call (family_constructor RFC) d1;
                                         scope_call (family_constructor ETC) d2]) in E.
  exists d1, d2. rewrite E. unfold results_labels. rewrite L.
  split; [reflexivity|]. split; [done|]. split; [done|]. split.
  - f_equal; apply list_fmap_ext; intros _ p _; unfold _name;
      by rewrite append_assoc.
  - apply (spaces_labels_NoDup [(RFC, name +:+ ".random_forest"); (ETC, name +:+ ".extra_trees")]).
    apply NoDup_cons. split; [|apply NoDup_singleton].
    rewrite list_elem_of_singleton. discriminate.
Qed.

(** X3. [_forest_regressors] never raises: for every base name it returns
    exactly two nodes, the random forest regressor then the extra trees
    regressor, each on a mapping with the documented keys; their labels are
    the twelve leaf names under [<name>.random_forest.rfr_] followed by the
    twelve under [<name>.extra_trees.etr_], all distinct. *)
Theorem _forest_regressors_spec (name : string) :
  exists d1 d2,
    _forest_regressors name
      = Ok [scope_call "sklearn_RandomForestRegressor" d1;
            scope_call "sklearn_ExtraTreesRegressor" d2] /\
    dict_keys d1 = documented_keys /\ dict_keys d2 = documented_keys /\
    results_labels (_forest_regressors name)
      = ((fun param => name +:+ ".random_forest.rfr_" +:+ param) <$> leaf_params) ++
        ((fun param => name +:+ ".extra_trees.etr_" +:+ param) <$> leaf_params) /\
    NoDup (results_labels (_forest_regressors name)).
Proof.
  destruct (aggregate_eq RFR ETR (name +:+ ".random_forest") (name +:+ ".extra_trees"))
    as (d1 & d2 & E & K1 & K2 & L).
  change (_forest_regressors name = Ok [scope_call (family_constructor RFR) d1;
                                        scope_call (family_constructor ETR) d2]) in E.
  exists d1, d2. rewrite E. unfold results_labels. rewrite L.
  split; [reflexivity|]. split; [done|]. split; [done|]. split.
  - f_equal; apply list_fmap_ext; intros _ p _; unfold _name;
      by rewrite append_assoc.
  - apply (spaces_labels_NoDup [(RFR, name +:+ ".random_forest"); (ETR, name +:+ ".extra_trees")]).
    apply NoDup_cons. split; [|apply NoDup_singleton].
    rewrite list_elem_of_singleton. discriminate.
Qed.

(** X4. The classifiers and the regressors of one base name can share a
    search space: the forty-eight labels of [_forest_classifiers name] and
    [_forest_regressors name] together are pairwise distinct. *)
Theorem aggregates_labels_NoDup (name : string) :
  length (results_labels (_forest_classifiers name) ++
          results_labels (_forest_regressors name)) = 48 /\
  NoDup (results_labels (_forest_classifiers name) ++
         results_labels (_forest_regressors name)).
Proof.
  destruct (aggregate_eq RFC ETC (name +:+ ".random_forest") (name +:+ ".extra_trees"))
    as (c1 & c2 & Ec & _ & _ & Lc).
  destruct (aggregate_eq RFR ETR (name +:+ ".random_forest") (name +:+ ".extra_trees"))
    as (r1 & r2 & Er & _ & _ & Lr).
  change (_forest_classifiers name = Ok [scope_call (family_constructor RFC) c1;
                                         scope_call (family_constructor ETC) c2]) in Ec.
  change (_forest_regressors name = Ok [scope_call (family_constructor RFR) r1;
                                        scope_call (family_constructor ETR) r2]) in Er.
  rewrite Ec, Er. unfold results_labels. rewrite Lc, Lr. split.
  - by rewrite !length_app, !length_fmap.
  - apply (spaces_labels_NoDup
      [(RFC, name +:+ ".random_forest"); (ETC, name +:+ ".extra_trees");
       (RFR, name +:+ ".random_forest"); (ETR, name +:+ ".extra_trees")]).
    repeat (apply NoDup_cons; split; [rewrite ?elem_of_cons, ?elem_of_nil; intros Hx;
      repeat (destruct Hx as [Hx|Hx]; [discriminate Hx|]); done|]).
    apply NoDup_nil_2.
Qed.

(** ** Which calls are accepted *)

Lemma validate_params_Ok_inv (params : list string) (validation_test : pylit -> bool)
    (msg : string) (kwargs : kwargs_t) :
  validate_params params validation_test msg kwargs = Ok tt ->
  forall param v, param ∈ params -> kwargs !! param = Some v -> validation_test v = false.
Proof.
  intros HOk param v Hin Hv. destruct (validation_test v) eqn:Ht; [|done].
  destruct (validate_params_Raise params validation_test msg kwargs param v Hin Hv Ht)
    as [e He].
  congruence.
Qed.

Lemma _forest_hp_space_rules_check (name_func : string -> string) (kwargs : kwargs_t) :
  _forest_hp_space name_func kwargs
  = rules_check kwargs ≫= fun _ => _forest_hp_space_undecorated name_func kwargs.
Proof.
  rewrite _forest_hp_space_eq. unfold rules_check.
  destruct (validate_params ["max_features"] _ _ _) as [[]|]; [|done].
  rewrite !bind_Ok.
  destruct (validate_params positive_params _ _ _) as [[]|]; [|done].
  rewrite !bind_Ok.
  by destruct (validate_params ["ccp_alpha"] _ _ _) as [[]|].
Qed.

Lemma rules_check_Ok (kwargs : kwargs_t) :
  rules_check kwargs = Ok tt <-> rules_pass kwargs.
Proof.
  unfold rules_check, rules_pass. split.
  - intros ([] & H1 & H)%bind_Ok_inv. apply bind_Ok_inv in H as ([] & H2 & H3).
    split; [|split].
    + intros s Hs.
      pose proof (validate_params_Ok_inv _ _ _ _ H1 "max_features" (LStr s)) as Ht.
      simpl in Ht. destruct (decide (s ∈ ["auto"; "sqrt"; "log2"])) as [|Hn]; [done|].
      rewrite bool_decide_eq_false_2 in Ht by done.
      discriminate Ht; [apply list_elem_of_here | done].
    + intros p x Hp Hx.
      pose proof (validate_params_Ok_inv _ _ _ _ H2 p (LFloat x) Hp Hx) as Ht.
      simpl in Ht. by destruct (float_gt_0 x).
    + intros x Hx.
      pose proof (validate_params_Ok_inv _ _ _ _ H3 "ccp_alpha" (LFloat x)) as Ht.
      simpl in Ht. destruct (float_lt_0 x); [done|].
      discriminate Ht; [apply list_elem_of_here | done].
  - intros (H1 & H2 & H3).
    rewrite (validate_params_Ok ["max_features"]), bind_Ok.
    2:{ intros p v ->%list_elem_of_singleton Hv. destruct v as [| | | |s]; try done.
        simpl. by rewrite bool_decide_eq_true_2 by eauto. }
    rewrite (validate_params_Ok positive_params), bind_Ok.
    2:{ intros p v Hp Hv. destruct v as [| | |x|]; try done.
        simpl. by rewrite (H2 p x). }
    apply validate_params_Ok.
    intros p v ->%list_elem_of_singleton Hv. destruct v as [| | |x|]; try done.
    simpl. by rewrite (H3 x).
Qed.

Lemma rules_check_Raise (kwargs : kwargs_t) (e : exn) :
  rules_check kwargs = Raise e -> validation_error kwargs e.
Proof.
  unfold rules_check. intros [H|(_ & _ & H)]%bind_Raise_inv.
  { apply validate_params_Raise_inv in H as (p & v & -> & _ & Hp & _).
    exists max_features_msg, p, v. rewrite !elem_of_cons. auto. }
  apply bind_Raise_inv in H as [H|(_ & _ & H)].
  { apply validate_params_Raise_inv in H as (p & v & -> & _ & Hp & _).
    exists positive_msg, p, v. rewrite !elem_of_cons. auto. }
  apply validate_params_Raise_inv in H as (p & v & -> & _ & Hp & _).
  exists ccp_alpha_msg, p, v. rewrite !elem_of_cons. auto 6.
Qed.

Lemma is_False_arg_bootstrap (kwargs : kwargs_t) :
  is_False (arg kwargs "bootstrap" LNone) = true <-> kwargs !! "bootstrap" = Some (LBool false).
Proof.
  unfold arg. destruct (kwargs !! "bootstrap") as [[|[]| | |]|]; simpl; split; done.
Qed.

(** The stages of an entry point, on the outcome of the rules. *)
Lemma entry_point_stages (f : family) (name : string) (criterion : pylit)
    (kwargs : kwargs_t) :
  entry_point f name criterion kwargs =
  match rules_check kwargs with
  | Raise e => Raise e
  | Ok _ =>
      if bool_decide (dom kwargs ⊆ list_to_set forest_params) then
        if is_False (arg kwargs "bootstrap" LNone)
        then Raise (ValueError (Text bootstrap_msg))
        else Ok (scope_call (family_constructor f)
                   (dict_set (bind_signature (hp_space (_name f name)) kwargs) "criterion"
                      (py_or criterion (family_criterion f (_name f name "criterion")))))
      else Raise TypeError
  end.
Proof.
  rewrite entry_point_eq, _forest_hp_space_rules_check.
  destruct (rules_check kwargs) as [[]|e]; [|done]. rewrite bind_Ok.
  unfold _forest_hp_space_undecorated. case_bool_decide; [|done].
  unfold bind_signature at 1, _forest_hp_space_body. rewrite bootstrap_guard.
  by destruct (is_False _).
Qed.

(** X5. The exact condition under which a builder returns: the three rules
    hold of the keyword arguments, every keyword is one of the sixteen
    parameters of the composer, and [bootstrap] is not [False]. *)
Theorem entry_point_accepts (f : family) (name : string) (criterion : pylit)
    (kwargs : kwargs_t) :
  is_Ok (entry_point f name criterion kwargs) = true <->
  rules_pass kwargs /\
  dom kwargs ⊆ list_to_set forest_params /\
  kwargs !! "bootstrap" <> Some (LBool false).
Proof.
  rewrite entry_point_stages, <- rules_check_Ok, <- is_False_arg_bootstrap.
  destruct (rules_check kwargs) as [[]|e]; simpl.
  - case_bool_decide; [|naive_solver].
    destruct (is_False _); naive_solver.
  - naive_solver.
Qed.

(** X6. The other two exceptions come after the rules: a builder raises
    [TypeError] exactly when the rules hold and some keyword is not a
    parameter of the composer, and the error on [bootstrap] exactly when the
    rules hold, every keyword is a parameter and [bootstrap] is [False]; in
    every other failing call the exception is a validation error. *)
Theorem entry_point_exceptions (f : family) (name : string) (criterion : pylit)
    (kwargs : kwargs_t) :
  (entry_point f name criterion kwargs = Raise TypeError <->
   rules_pass kwargs /\ ¬ dom kwargs ⊆ list_to_set forest_params) /\
  (entry_point f name criterion kwargs = Raise (ValueError (Text bootstrap_msg)) <->
   rules_pass kwargs /\ dom kwargs ⊆ list_to_set forest_params /\
   kwargs !! "bootstrap" = Some (LBool false)) /\
  (forall e, entry_point f name criterion kwargs = Raise e ->
     e = TypeError \/ e = ValueError (Text bootstrap_msg) \/ validation_error kwargs e).
Proof.
  rewrite entry_point_stages, <- rules_check_Ok, <- is_False_arg_bootstrap.
  destruct (rules_check kwargs) as [[]|e] eqn:Hr.
  - case_bool_decide; [destruct (is_False _)|]; naive_solver.
  - apply rules_check_Raise in Hr. pose proof Hr as (t & p & v & -> & _ & _).
    split; [|split]; [naive_solver..|]. intros e [= <-]. auto.
Qed.

(** X7. Whether a call raises, and what, is decided by the keyword
    arguments alone: the four builders, under any base names and with any
    [criterion], accept the same keyword arguments and raise the same
    exception on the others. *)
Theorem entry_point_same_outcome (f f' : family) (name name' : string)
    (criterion criterion' : pylit) (kwargs : kwargs_t) :
  match entry_point f name criterion kwargs with
  | Ok _ => is_Ok (entry_point f' name' criterion' kwargs) = true
  | Raise e => entry_point f' name' criterion' kwargs = Raise e
  end.
Proof.
  rewrite !entry_point_stages.
  destruct (rules_check kwargs) as [[]|e]; [|done].
  case_bool_decide; [|done]. by destruct (is_False _).
Qed.

(** ** An explicit default is an omitted argument *)

Lemma validate_params_insert_delete (params : list string) (validation_test : pylit -> bool)
    (msg : string) (kwargs : kwargs_t) (param : string) (v : pylit) :
  validation_test v = false ->
  validate_params params validation_test msg (<[param:=v]> kwargs)
  = validate_params params validation_test msg (delete param kwargs).
Proof.
  intros Hv. induction params as [|q params IH]; [done|]. simpl.
  destruct (decide (param = q)) as [<-|Hne].
  - by rewrite lookup_insert_eq, lookup_delete_eq, Hv.
  - rewrite lookup_insert_ne, lookup_delete_ne by done. by rewrite IH.
Qed.

Lemma arg_insert_delete (kwargs : kwargs_t) (param : string) (v : pylit)
    (q : string) (dflt : pylit) :
  (q = param -> dflt = v) ->
  arg (<[param:=v]> kwargs) q dflt = arg (delete param kwargs) q dflt.
Proof.
  intros H. unfold arg. destruct (decide (param = q)) as [<-|Hne].
  - rewrite lookup_insert_eq, lookup_delete_eq. simpl. symmetry. by apply H.
  - by rewrite lookup_insert_ne, lookup_delete_ne.
Qed.

Lemma dom_insert_delete_subseteq (kwargs : kwargs_t) (param : string) (v : pylit)
    (params : gset string) :
  param ∈ params ->
  dom (<[param:=v]> kwargs) ⊆ params <-> dom (delete param kwargs) ⊆ params.
Proof.
  intros Hp. rewrite dom_insert_L, dom_delete_L. split; intros H k Hk.
  - apply H, elem_of_union. right. by apply elem_of_difference in Hk as [? _].
  - apply elem_of_union in Hk as [->%elem_of_singleton|Hk]; [done|].
    destruct (decide (k = param)) as [->|Hne]; [done|].
    apply H, elem_of_difference. split; [done|]. by rewrite elem_of_singleton.
Qed.

Lemma signature_defaults_params : signature_defaults.*1 = forest_params.
Proof. reflexivity. Qed.

Lemma signature_defaults_functional (param : string) (d1 d2 : pylit) :
  (param, d1) ∈ signature_defaults -> (param, d2) ∈ signature_defaults -> d1 = d2.
Proof.
  assert (Hnd : NoDup (signature_defaults.*1)) by compute_done.
  revert Hnd. generalize signature_defaults as l.
  induction l as [|[q dq] l IH]; intros Hnd H1 H2; [by apply elem_of_nil in H1|].
  apply NoDup_cons in Hnd as [Hq Hnd].
  apply elem_of_cons in H1 as [H1|H1]; apply elem_of_cons in H2 as [H2|H2].
  - congruence.
  - injection H1 as -> ->. destruct Hq. by apply (list_elem_of_fmap_2 fst _ (q, d2)).
  - injection H2 as -> ->. destruct Hq. by apply (list_elem_of_fmap_2 fst _ (q, d1)).
  - by apply IH.
Qed.

(** Binding reads the keyword arguments at the sixteen parameters only. *)
Lemma bind_signature_ext {A : Type}
    (func : pylit -> pylit -> pylit -> pylit -> pylit -> pylit -> pylit -> pylit ->
            pylit -> pylit -> pylit -> pylit -> pylit -> pylit -> pylit -> pylit -> A)
    (kwargs1 kwargs2 : kwargs_t) :
  (forall q dq, (q, dq) ∈ signature_defaults -> arg kwargs1 q dq = arg kwargs2 q dq) ->
  bind_signature func kwargs1 = bind_signature func kwargs2.
Proof.
  intros H. unfold bind_signature.
  f_equal; apply H;
    repeat first [apply list_elem_of_here | apply list_elem_of_further].
Qed.

(** No rule's predicate accepts a default of the signature, that of
    [ccp_alpha] apart. *)
Lemma signature_defaults_tests :
  Forall (fun pd => pd.1 <> "ccp_alpha" ->
            max_features_test pd.2 = false /\ positive_test pd.2 = false /\
            ccp_alpha_test pd.2 = false) signature_defaults.
Proof. repeat (constructor; [by intros ?|]). constructor. Qed.

(** X8. For every parameter of the composer but [ccp_alpha], passing the
    default of the signature explicitly ([None], or [False], [1], [False],
    [False] for [oob_score], [n_jobs], [verbose], [warm_start]) is the same
    call as not passing the parameter: same exception or same node. *)
Theorem explicit_default_is_omitted (f : family) (name : string) (criterion : pylit)
    (kwargs : kwargs_t) (param : string) (dflt : pylit) :
  (param, dflt) ∈ signature_defaults -> param <> "ccp_alpha" ->
  entry_point f name criterion (<[param:=dflt]> kwargs)
  = entry_point f name criterion (delete param kwargs).
Proof.
  intros Hin Hne.
  assert (Hp : param ∈ forest_params).
  { rewrite <- signature_defaults_params. by apply (list_elem_of_fmap_2 fst _ (param, dflt)). }
  pose proof signature_defaults_tests as Ht. rewrite Forall_forall in Ht.
  destruct (Ht _ Hin Hne) as (Ht1 & Ht2 & Ht3). simpl in Ht1, Ht2, Ht3.
  assert (Hd : forall q dq, (q, dq) ∈ signature_defaults -> q = param -> dq = dflt).
  { intros q dq Hq ->. by eapply signature_defaults_functional. }
  rewrite !entry_point_stages. unfold rules_check.
  rewrite !(validate_params_insert_delete _ _ _ kwargs param dflt) by done.
  rewrite (bool_decide_ext _ _ (dom_insert_delete_subseteq kwargs param dflt
             (list_to_set forest_params) (proj2 (elem_of_list_to_set _ _) Hp))).
  rewrite (bind_signature_ext _ (<[param:=dflt]> kwargs) (delete param kwargs)).
  2:{ intros q dq Hq. apply arg_insert_delete. by apply Hd. }
  rewrite (arg_insert_delete kwargs param dflt "bootstrap" LNone); [done|].
  apply Hd. repeat first [apply list_elem_of_here | apply list_elem_of_further].
Qed.

Lemma explicit_default_is_omitted_witness :
  extra_trees_regressor "et" LNone
    (<[ "max_depth" := LNone ]> {[ "max_depth" := LInt 3; "n_jobs" := LInt 2 ]})
  = extra_trees_regressor "et" LNone
      (delete "max_depth" {[ "max_depth" := LInt 3; "n_jobs" := LInt 2 ]}).
Proof.
  apply (explicit_default_is_omitted ETR "et" LNone
           {[ "max_depth" := LInt 3; "n_jobs" := LInt 2 ]} "max_depth" LNone).
  - apply list_elem_of_further, list_elem_of_here.
  - discriminate.
Defined.

(** ** The labels of a call with overrides *)

Lemma group_py_or (value : pylit) (dflt : pyval) (names : list string) :
  labels dflt = names -> (forall v, dflt <> Lit v) ->
  labels (py_or value dflt)
  = match py_or value dflt with Lit _ => [] | _ => names end.
Proof.
  intros <- Hd. unfold py_or. destruct (py_truthy value); [done|].
  destruct dflt as [v| | | | | | |]; [by destruct (Hd v)|done..].
Qed.

Lemma group_if_None_else (dflt : pyval) (value : pylit) (names : list string) :
  labels dflt = names -> (forall v, dflt <> Lit v) ->
  labels (if_None_else dflt value)
  = match if_None_else dflt value with Lit _ => [] | _ => names end.
Proof.
  intros <- Hd. unfold if_None_else. destruct (is_None value); [|done].
  destruct dflt as [v| | | | | | |]; [by destruct (Hd v)|done..].
Qed.

Lemma labels_py_or_Lit (value v : pylit) : labels (py_or value (Lit v)) = [].
Proof. unfold py_or. by destruct (py_truthy value). Qed.

(** X9. The labels of a successful call are those of its default
    distributions, key by key: a key whose entry in the mapping is a literal
    (an override that was kept) contributes no label, and every other key of
    [leaf_groups] contributes exactly the leaf names of its default
    distribution, in the order of the mapping. Overriding a parameter thus
    removes its leaf names and no others. *)
Theorem labels_of_call (f : family) (name : string) (criterion : pylit)
    (kwargs : kwargs_t) :
  is_Ok (entry_point f name criterion kwargs) = true ->
  result_labels (entry_point f name criterion kwargs)
  = flat_map (group_labels f name (entry_point f name criterion kwargs)) leaf_groups.
Proof.
  intros [node E]%is_Ok_inv. rewrite E.
  apply entry_point_Ok_inv in E as [_ ->].
  unfold bind_signature, result_labels.
  generalize (arg kwargs "n_estimators" LNone) (arg kwargs "max_depth" LNone)
    (arg kwargs "min_samples_split" LNone) (arg kwargs "min_samples_leaf" LNone)
    (arg kwargs "min_weight_fraction_leaf" LNone) (arg kwargs "max_features" LNone)
    (arg kwargs "max_leaf_nodes" LNone) (arg kwargs "min_impurity_decrease" LNone)
    (arg kwargs "bootstrap" LNone) (arg kwargs "oob_score" (LBool false))
    (arg kwargs "n_jobs" (LInt 1)) (arg kwargs "random_state" LNone)
    (arg kwargs "verbose" (LBool false)) (arg kwargs "warm_start" (LBool false))
    (arg kwargs "ccp_alpha" (LFloat (float_lit 0.0))) (arg kwargs "max_samples" LNone).
  intros a1 a2 a3 a4 a5 a6 a7 a8 a9 a10 a11 a12 a13 a14 a15 a16.
  set (nf := _name f name).
  change (
    labels (py_or a1 (_forest_n_estimators (nf "n_estimators"))) ++
    labels (if_None_else (_forest_max_depth (nf "max_depth")) a2) ++
    labels (py_or a3 (_forest_min_samples_split (nf "min_samples_split"))) ++
    labels (py_or a4 (_forest_min_samples_leaf (nf "min_samples_leaf"))) ++
    labels (py_or a5 (Lit (LFloat (float_lit 0.0)))) ++
    labels (py_or a6 (_forest_max_features (nf "max_features"))) ++
    labels (if_None_else (_forest_max_leaf_nodes (nf "max_leaf_nodes")) a7) ++
    labels (py_or a8 (_forest_min_impurity_decrease (nf "min_impurity_decrease"))) ++
    labels (if_None_else (_forest_bootstrap (nf "bootstrap")) a9) ++
    labels (if_None_else (_forest_random_state (nf "random_state")) a12) ++
    labels (py_or criterion (family_criterion f (nf "criterion"))) ++ []
    =
    match Some (py_or a1 (_forest_n_estimators (nf "n_estimators")))
      with Some (Lit _) => [] | _ => nf <$> ["n_estimators"] end ++
    match Some (if_None_else (_forest_max_depth (nf "max_depth")) a2)
      with Some (Lit _) => [] | _ => nf <$> ["max_depth"] end ++
    match Some (py_or a3 (_forest_min_samples_split (nf "min_samples_split")))
      with Some (Lit _) => [] | _ => nf <$> ["min_samples_split"] end ++
    match Some (py_or a4 (_forest_min_samples_leaf (nf "min_samples_leaf")))
      with Some (Lit _) => [] | _ => nf <$> ["min_samples_leaf"; "min_samples_leaf.gt1"] end ++
    match Some (py_or a6 (_forest_max_features (nf "max_features")))
      with Some (Lit _) => [] | _ => nf <$> ["max_features"; "max_features.frac"] end ++
    match Some (if_None_else (_forest_max_leaf_nodes (nf "max_leaf_nodes")) a7)
      with Some (Lit _) => [] | _ => nf <$> ["max_leaf_nodes"] end ++
    match Some (py_or a8 (_forest_min_impurity_decrease (nf "min_impurity_decrease")))
      with Some (Lit _) => [] | _ => nf <$> ["min_impurity_decrease"] end ++
    match Some (if_None_else (_forest_bootstrap (nf "bootstrap")) a9)
      with Some (Lit _) => [] | _ => nf <$> ["bootstrap"] end ++
    match Some (if_None_else (_forest_random_state (nf "random_state")) a12)
      with Some (Lit _) => [] | _ => nf <$> ["random_state"] end ++
    match Some (py_or criterion (family_criterion f (nf "criterion")))
      with Some (Lit _) => [] | _ => nf <$> ["criterion"] end ++ []).
  rewrite labels_py_or_Lit. simpl app at 5.
  repeat (f_equal;
    [ (apply group_py_or || apply group_if_None_else);
      [ subst nf; destruct f; cbn -[_name String.append]; by rewrite ?_name_append
      | by destruct f ]
    | ]).
  f_equal. apply group_py_or; by destruct f.
Qed.

Lemma labels_of_call_witness :
  result_labels (random_forest_classifier "rf" (LStr "gini")
                   {[ "min_samples_leaf" := LInt 5; "max_depth" := LInt 3 ]})
  = flat_map (group_labels RFC "rf"
                (random_forest_classifier "rf" (LStr "gini")
                   {[ "min_samples_leaf" := LInt 5; "max_depth" := LInt 3 ]})) leaf_groups.
Proof.
  apply (labels_of_call RFC "rf" (LStr "gini")
           {[ "min_samples_leaf" := LInt 5; "max_depth" := LInt 3 ]}).
  vm_compute. reflexivity.
Defined.

Example labels_with_overrides :
  result_labels (random_forest_classifier "rf" (LStr "gini")
                   {[ "min_samples_leaf" := LInt 5; "max_depth" := LInt 3 ]})
  = ["rf.rfc_n_estimators"; "rf.rfc_min_samples_split";
     "rf.rfc_max_features"; "rf.rfc_max_features.frac"; "rf.rfc_max_leaf_nodes";
     "rf.rfc_min_impurity_decrease"; "rf.rfc_bootstrap"; "rf.rfc_random_state"].
Proof. vm_compute. reflexivity. Qed.

(** ** The values of the mapping *)

(** X10. An entry point leaves the mapping of the composer as it is and
    adds [criterion] after its sixteen keys, which never hold that key: the
    caller's [criterion] when it is true in Python, unchecked (any string),
    and the choice of the family otherwise. *)
Theorem criterion_injected (f : family) (name : string) (criterion : pylit)
    (kwargs : kwargs_t) :
  is_Ok (entry_point f name criterion kwargs) = true ->
  exists d,
    _forest_hp_space (_name f name) kwargs = Ok d /\
    dict_get d "criterion" = None /\
    bound_mapping (entry_point f name criterion kwargs)
    = Some (d ++ [("criterion",
                   if py_truthy criterion then Lit criterion
                   else family_criterion f (_name f name "criterion"))]).
Proof.
  intros [node E]%is_Ok_inv. rewrite E.
  apply entry_point_Ok_inv in E as [E ->]. eexists. split; [exact E|].
  split; reflexivity.
Qed.

Lemma criterion_injected_witness :
  exists d,
    _forest_hp_space (_name RFR "rf") ∅ = Ok d /\
    dict_get d "criterion" = None /\
    bound_mapping (random_forest_regressor "rf" (LStr "poisson") ∅)
    = Some (d ++ [("criterion",
                   if py_truthy (LStr "poisson") then Lit (LStr "poisson")
                   else family_criterion RFR (_name RFR "rf" "criterion"))]).
Proof.
  apply (criterion_injected RFR "rf" (LStr "poisson") ∅). vm_compute. reflexivity.
Defined.

(** X11. [oob_score], [n_jobs], [verbose], [warm_start], [ccp_alpha] and
    [max_samples] are never searched: in the mapping of every successful
    call each is a literal, the caller's value when one was passed and the
    default of the signature ([False], [1], [False], [False], [0.0],
    [None]) otherwise. *)
Theorem passthrough_params (f : family) (name : string) (criterion : pylit)
    (kwargs : kwargs_t) (param : string) (dflt : pylit) :
  (param, dflt) ∈ passthrough_defaults ->
  is_Ok (entry_point f name criterion kwargs) = true ->
  result_get (entry_point f name criterion kwargs) param
  = Some (Lit (default dflt (kwargs !! param))).
Proof.
  intros Hin [node E]%is_Ok_inv. rewrite E.
  apply entry_point_Ok_inv in E as [_ ->].
  unfold passthrough_defaults in Hin. rewrite !elem_of_cons, elem_of_nil in Hin.
  destruct Hin as [Hin|[Hin|[Hin|[Hin|[Hin|[Hin|[]]]]]]];
    injection Hin as -> ->; reflexivity.
Qed.

Lemma passthrough_params_witness :
  result_get (extra_trees_classifier "et" LNone {[ "n_jobs" := LInt 4 ]}) "n_jobs"
  = Some (Lit (default (LInt 1) (({[ "n_jobs" := LInt 4 ]} : gmap string pylit) !! "n_jobs"))).
Proof.
  apply (passthrough_params ETC "et" LNone {[ "n_jobs" := LInt 4 ]} "n_jobs" (LInt 1)).
  - apply list_elem_of_further, list_elem_of_here.
  - vm_compute. reflexivity.
Defined.

(** X12. For the six parameters defaulted with [or] ([n_estimators],
    [min_weight_fraction_leaf] and the four of [or_defaulted]), in the mapping
    of every successful call: an override that is true in Python is kept
    as it is, and a parameter that was not passed, or passed with a value
    that is false in Python, holds what its generator returns for the
    closure's name of the parameter. *)
Theorem or_params_mapping (f : family) (name : string) (criterion : pylit)
    (kwargs : kwargs_t) (param : string) (gen : string -> pyval) :
  (param, gen) ∈ or_generators ->
  is_Ok (entry_point f name criterion kwargs) = true ->
  (forall v, kwargs !! param = Some v -> py_truthy v = true ->
     result_get (entry_point f name criterion kwargs) param = Some (Lit v)) /\
  (kwargs !! param = None \/ (exists v, kwargs !! param = Some v /\ py_truthy v = false) ->
     result_get (entry_point f name criterion kwargs) param
     = Some (gen (_name f name param))).
Proof.
  intros Hin [node E]%is_Ok_inv. rewrite E.
  apply entry_point_Ok_inv in E as [_ ->].
  assert (Hget : result_get
      (Ok (scope_call (family_constructor f)
             (dict_set (bind_signature (hp_space (_name f name)) kwargs) "criterion"
                (py_or criterion (family_criterion f (_name f name "criterion"))))))
      param
    = Some (py_or (arg kwargs param LNone) (gen (_name f name param)))).
  { unfold or_generators, or_defaulted in Hin. rewrite !elem_of_cons, elem_of_nil in Hin.
    destruct Hin as [Hin|[Hin|[Hin|[Hin|[Hin|[Hin|[]]]]]]];
      injection Hin as -> ->; reflexivity. }
  rewrite Hget. unfold arg, py_or. split.
  - intros v -> Hv. simpl. by rewrite Hv.
  - intros [->|(v & -> & Hv)]; simpl; [done | by rewrite Hv].
Qed.

Lemma or_params_mapping_witness :
  (forall v, ({[ "n_estimators" := LInt 100 ]} : gmap string pylit) !! "n_estimators" = Some v ->
     py_truthy v = true ->
     result_get (random_forest_classifier "rf" LNone {[ "n_estimators" := LInt 100 ]})
       "n_estimators" = Some (Lit v)) /\
  (({[ "n_estimators" := LInt 100 ]} : gmap string pylit) !! "n_estimators" = None \/
   (exists v, ({[ "n_estimators" := LInt 100 ]} : gmap string pylit) !! "n_estimators" = Some v /\
      py_truthy v = false) ->
     result_get (random_forest_classifier "rf" LNone {[ "n_estimators" := LInt 100 ]})
       "n_estimators"
     = Some (_forest_n_estimators (_name RFC "rf" "n_estimators"))).
Proof.
  apply (or_params_mapping RFC "rf" LNone {[ "n_estimators" := LInt 100 ]}
           "n_estimators" _forest_n_estimators).
  - apply list_elem_of_here.
  - vm_compute. reflexivity.
Defined.

(** X13. For [max_depth], [max_leaf_nodes] and [bootstrap], in the mapping
    of every successful call: an override other than [None] is kept as it is
    ([0] included), a parameter not passed or passed as [None] holds what its
    generator returns, and [bootstrap] is never the literal [False]. *)
Theorem is_None_params_kept (f : family) (name : string) (criterion : pylit)
    (kwargs : kwargs_t) (param : string) (gen : string -> pyval) :
  (param, gen) ∈ is_None_generators ->
  is_Ok (entry_point f name criterion kwargs) = true ->
  (forall v, kwargs !! param = Some v -> v <> LNone ->
     result_get (entry_point f name criterion kwargs) param = Some (Lit v)) /\
  (kwargs !! param = None \/ kwargs !! param = Some LNone ->
     result_get (entry_point f name criterion kwargs) param
     = Some (gen (_name f name param))) /\
  result_get (entry_point f name criterion kwargs) "bootstrap" <> Some (Lit (LBool false)).
Proof.
  intros Hin [node E]%is_Ok_inv. rewrite E.
  apply entry_point_Ok_inv in E as [Hb ->].
  apply _forest_hp_space_Ok_inv in Hb as (_ & _ & _ & Hb & _).
  assert (Hget : result_get
      (Ok (scope_call (family_constructor f)
             (dict_set (bind_signature (hp_space (_name f name)) kwargs) "criterion"
                (py_or criterion (family_criterion f (_name f name "criterion"))))))
      param
    = Some (if_None_else (gen (_name f name param)) (arg kwargs param LNone))).
  { unfold is_None_generators in Hin. rewrite !elem_of_cons, elem_of_nil in Hin.
    destruct Hin as [Hin|[Hin|[Hin|[]]]]; injection Hin as -> ->; reflexivity. }
  rewrite Hget. unfold arg, if_None_else. split; [|split].
  - intros v -> Hv. simpl. by destruct v.
  - by intros [->| ->].
  - change (result_get _ "bootstrap")
      with (Some (if_None_else (_forest_bootstrap (_name f name "bootstrap"))
                    (arg kwargs "bootstrap" LNone))).
    unfold arg, if_None_else in *.
    by destruct (kwargs !! "bootstrap") as [[|[]| | |]|].
Qed.

Lemma is_None_params_kept_witness :
  result_get (random_forest_regressor "rf" LNone {[ "max_depth" := LInt 0 ]}) "max_depth"
  = Some (Lit (LInt 0)).
Proof.
  apply (is_None_params_kept RFR "rf" LNone {[ "max_depth" := LInt 0 ]}
           "max_depth" _forest_max_depth).
  - apply list_elem_of_here.
  - vm_compute. reflexivity.
  - reflexivity.
  - discriminate.
Defined.

(** ** The generators *)



